(** * DivMachines: the forward passes of [divmachines.models]

    A shallow embedding of the four modules of
    [src/divmachines/models/__init__.py]

      - [MatrixFactorizationModel]        (embedding model with biases)
      - [SimpleMatrixFactorizationModel]  (embedding model without biases)
      - [FactorizationMachine]
      - [SecondOrderInteraction]

    over a small model of the tensor primitives they call.  The scalar
    arithmetic is a type class, so that one and the same definition of a
    forward pass is read at the real numbers (exact arithmetic) and at IEEE
    binary32 (the arithmetic of [torch.FloatTensor]). *)

From Stdlib Require Import List ZArith Arith Lia Bool.
From Stdlib Require Import Reals Lra.
From Stdlib Require Import Floats.SpecFloat.
Import ListNotations.

Set Implicit Arguments.

(** ** Scalars *)

(** What the forward passes need of a scalar type: the constants [0], [1]
    and the literal [0.5], and the three operations [+], [-], [*]. *)
Class Arith (T : Type) : Type := {
  zero : T;
  one  : T;
  half : T;
  add  : T -> T -> T;
  sub  : T -> T -> T;
  mul  : T -> T -> T
}.

(** Exact arithmetic. *)
#[export] Instance RArith : Arith R := {|
  zero := 0%R;
  one  := 1%R;
  half := (1 / 2)%R;
  add  := Rplus;
  sub  := Rminus;
  mul  := Rmult
|}.

(** IEEE 754 binary32, round to nearest even: 24 bits of precision, the
    exponent of the infinities is 128. *)
Definition f32 : Type := spec_float.

Definition f32_prec : Z := 24.
Definition f32_emax : Z := 128.

(** [f32_of m e] is the binary32 number nearest to [m * 2^e]. *)
Definition f32_of (m e : Z) : f32 := binary_normalize f32_prec f32_emax m e false.

#[export] Instance F32Arith : Arith f32 := {|
  zero := S754_zero false;
  one  := f32_of 1 0;
  half := f32_of 1 (-1);
  add  := SFadd f32_prec f32_emax;
  sub  := SFsub f32_prec f32_emax;
  mul  := SFmul f32_prec f32_emax
|}.

(** Zeros of either sign. *)
Definition f32_is_zero (a : f32) : bool :=
  match a with
  | S754_zero _ => true
  | _ => false
  end.

(** Neither an infinity nor a NaN. *)
Definition f32_is_finite (a : f32) : bool :=
  match a with
  | S754_zero _ | S754_finite _ _ _ => true
  | _ => false
  end.

(** ** Failure *)

(** The two exceptions the tensor primitives raise: [RuntimeError] on a
    shape mismatch, [IndexError] on an index or a dimension out of range. *)
Inductive error : Type :=
| RuntimeError
| IndexError.

Inductive result (A : Type) : Type :=
| Ok (a : A)
| Raise (e : error).

Arguments Ok {A} a.
Arguments Raise {A} e.

(** ** Tensors *)

(** A tensor is its shape and its elements in row-major order, as a
    contiguous [torch.Tensor] stores them. *)
Record tensor (A : Type) : Type := mkTensor {
  shape : list nat;
  data  : list A
}.

Arguments mkTensor {A} shape data.

Definition numel (s : list nat) : nat := fold_right Nat.mul 1 s.

(** [t.dim()], that is [len(t.size())]. *)
Definition dim {A} (t : tensor A) : nat := length (shape t).

Definition well_formed {A} (t : tensor A) : Prop :=
  length (data t) = numel (shape t).

(** [t.size()[0]]: indexing the empty size of a 0-dim tensor raises. *)
Definition size0 {A} (t : tensor A) : result nat :=
  match shape t with
  | [] => Raise IndexError
  | d :: _ => Ok d
  end.

(** [t.squeeze()] drops every dimension of size 1; the elements stay. *)
Definition squeeze {A} (t : tensor A) : tensor A :=
  mkTensor (filter (fun d => negb (d =? 1)) (shape t)) (data t).

(** [t.unsqueeze(-1)] appends a dimension of size 1. *)
Definition unsqueeze_last {A} (t : tensor A) : tensor A :=
  mkTensor (shape t ++ [1]) (data t).

(** Broadcasting of two shapes, aligned at the last dimension; both lists
    are given last dimension first. *)
Fixpoint broadcast_rev (s1 s2 : list nat) : option (list nat) :=
  match s1, s2 with
  | [], s => Some s
  | s, [] => Some s
  | d1 :: r1, d2 :: r2 =>
      match broadcast_rev r1 r2 with
      | None => None
      | Some r =>
          if d1 =? d2 then Some (d1 :: r)
          else if d1 =? 1 then Some (d2 :: r)
          else if d2 =? 1 then Some (d1 :: r)
          else None
      end
  end.

Definition broadcast_shapes (s1 s2 : list nat) : option (list nat) :=
  option_map (@rev nat) (broadcast_rev (rev s1) (rev s2)).

(** The position, in an operand of shape [src], of the element that is
    broadcast to position [idx] of the result of shape [tgt] (both shapes
    last dimension first): a dimension of size 1, or a missing leading
    dimension, contributes no offset. *)
Fixpoint src_offset (tgt src : list nat) (idx stride : nat) : nat :=
  match tgt, src with
  | d :: tgt', s :: src' =>
      (if s =? 1 then 0 else (idx mod d) * stride)
      + src_offset tgt' src' (idx / d) (stride * s)
  | _, _ => 0
  end.

Definition offset_in (tgt : list nat) {A} (t : tensor A) (idx : nat) : nat :=
  src_offset (rev tgt) (rev (shape t)) idx 1.

(** The [m * k] elements [g i j], row by row. *)
Definition tabulate2 {A} (m k : nat) (g : nat -> nat -> A) : list A :=
  flat_map (fun i => map (g i) (seq 0 k)) (seq 0 m).

(** All ids lie in [0, n). *)
Definition valid_ids (n : nat) (ids : tensor Z) : bool :=
  forallb (fun i => (0 <=? i)%Z && (i <? Z.of_nat n)%Z) (data ids).

(** Row [i] of an embedding table of width [k]. *)
Definition table_row {A} (d : A) (k : nat) (w : list A) (i : nat) : list A :=
  map (fun j => nth (i * k + j) w d) (seq 0 k).

(** Modelled from the spec: the lookup of [ScaledEmbedding] and
    [ZeroEmbedding], whose module [divmachines.models.layers] is not part of
    the sources at hand.  The lookup gathers, for each id, the corresponding
    row of the table [w]; the result has the shape of [ids] followed by the
    width of the table.  Ids must lie in [0, cardinality): an id outside
    the table raises. *)
Definition embedding {A} (d : A) (w : tensor A) (ids : tensor Z) : result (tensor A) :=
  match shape w with
  | [n; k] =>
      if valid_ids n ids
      then Ok (mkTensor (shape ids ++ [k])
                 (flat_map (fun i => table_row d k (data w) (Z.to_nat i)) (data ids)))
      else Raise IndexError
  | _ => Raise RuntimeError
  end.

Section TensorOps.

Context {T : Type} `{Arith T}.

(** Sums accumulate from the left, starting at zero.  In exact arithmetic
    this is the sum; in binary32 it is one of the orders in which [sum]
    and [torch.mm] may accumulate. *)
Definition tsum (l : list T) : T := fold_left add l zero.

(** [a ** n] for a natural exponent. *)
Fixpoint scalar_pow (a : T) (n : nat) : T :=
  match n with
  | O => one
  | S m => mul a (scalar_pow a m)
  end.

(** [torch.pow(t, n)], element by element. *)
Definition pow (t : tensor T) (n : nat) : tensor T :=
  mkTensor (shape t) (map (fun a => scalar_pow a n) (data t)).

(** [c * t] for a Python scalar [c]. *)
Definition scale (c : T) (t : tensor T) : tensor T :=
  mkTensor (shape t) (map (mul c) (data t)).

(** An element-wise binary operation with broadcasting. *)
Definition binop (f : T -> T -> T) (a b : tensor T) : result (tensor T) :=
  match broadcast_shapes (shape a) (shape b) with
  | None => Raise RuntimeError
  | Some s =>
      Ok (mkTensor s
            (map (fun idx => f (nth (offset_in s a idx) (data a) zero)
                               (nth (offset_in s b idx) (data b) zero))
                 (seq 0 (numel s))))
  end.

Definition tadd : tensor T -> tensor T -> result (tensor T) := binop add.
Definition tsub : tensor T -> tensor T -> result (tensor T) := binop sub.
Definition tmul : tensor T -> tensor T -> result (tensor T) := binop mul.

(** The sum of [f 0], ..., [f (n-1)], in this order. *)
Definition sum_upto (n : nat) (f : nat -> T) : T := tsum (map f (seq 0 n)).

(** Element [(i, j)] of a matrix. *)
Definition at2 (t : tensor T) (i j : nat) : T :=
  nth (i * nth 1 (shape t) 0 + j) (data t) zero.

(** [torch.mm(a, b)]: both operands are matrices and the inner
    dimensions agree, or it raises. *)
Definition mm (a b : tensor T) : result (tensor T) :=
  match shape a, shape b with
  | [m; n], [n'; k] =>
      if n =? n' then
        Ok (mkTensor [m; k]
              (tabulate2 m k (fun i j =>
                 sum_upto n (fun l => mul (nth (i * n + l) (data a) zero)
                                          (nth (l * k + j) (data b) zero)))))
      else Raise RuntimeError
  | _, _ => Raise RuntimeError
  end.

(** [t.sum()]: the sum of all elements, a 0-dim tensor. *)
Definition sum_all (t : tensor T) : tensor T :=
  mkTensor [] [tsum (data t)].

(** [t.sum(d)] for [d >= 1]: reduce dimension [d], which must exist.
    With [outer] the number of index tuples before dimension [d], [n] its
    size and [inner] the number of index tuples after it, element
    [(o, j, p)] sits at [(o * n + j) * inner + p]. *)
Definition sum_dim (d : nat) (t : tensor T) : result (tensor T) :=
  if d <? dim t then
    let pre := firstn d (shape t) in
    let n := nth d (shape t) 0 in
    let post := skipn (S d) (shape t) in
    Ok (mkTensor (pre ++ post)
          (tabulate2 (numel pre) (numel post) (fun o p =>
             sum_upto n (fun j => nth ((o * n + j) * numel post + p) (data t) zero))))
  else Raise IndexError.

(** [t[bs]] for a matrix [t]: the rows of [t] at the indices [bs]. *)
Definition select_rows (bs : list nat) (t : tensor T) : tensor T :=
  mkTensor [length bs; nth 1 (shape t) 0]
    (flat_map (fun b => map (fun i => at2 t b i) (seq 0 (nth 1 (shape t) 0))) bs).

End TensorOps.

(** ** Objects and their methods *)

(** A method of an object of type [S] reads and writes the attributes of
    the object and either returns a value or raises; what was written
    before an exception stays written. *)
Definition method (S A : Type) : Type := S -> S * result A.

Definition ret {S A} (a : A) : method S A := fun s => (s, Ok a).

Definition bind {S A B} (m : method S A) (k : A -> method S B) : method S B :=
  fun s =>
    match m s with
    | (s', Ok a) => k a s'
    | (s', Raise e) => (s', Raise e)
    end.

(** A tensor primitive called from a method: it touches no attribute. *)
Definition call {S A} (r : result A) : method S A := fun s => (s, r).

(** Reading an attribute, [self.a]. *)
Definition attr {S A} (f : S -> A) : method S A := fun s => (s, Ok (f s)).

(** Assigning to attributes, [self.a = ...]. *)
Definition assign {S} (f : S -> S) : method S unit := fun s => (f s, Ok tt).

(** Calling a method of the sub-module held in an attribute: [get] reads
    the attribute and [set] stores the sub-module's new state. *)
Definition on_submodule {S S' A} (get : S -> S') (set : S' -> S -> S)
    (m : method S' A) : method S A :=
  fun s => let (s', r) := m (get s) in (set s' s, r).

Declare Scope method_scope.
Delimit Scope method_scope with method.

Notation "x <- m ;; k" := (bind m (fun x => k))
  (at level 61, m at next level, right associativity) : method_scope.
Notation "m ;;; k" := (bind m (fun _ => k))
  (at level 61, right associativity) : method_scope.

Open Scope method_scope.

(** ** [SecondOrderInteraction] *)

Module SecondOrderInteraction.
Section WithArith.

Context {T : Type} `{Arith T}.

Record t : Type := mk {
  batch_size : option nat;
  n_features : nat;
  n_factors  : nat;
  v          : tensor T
}.

Definition set_batch_size (b : nat) (self : t) : t :=
  mk (Some b) (n_features self) (n_factors self) (v self).

Definition forward (x : tensor T) : method t (tensor T) :=
  b <- call (size0 x) ;;
  assign (set_batch_size b) ;;;
  let pow_x := pow x 2 in
  self_v <- attr v ;;
  let pow_v := pow self_v 2 in
  xv <- call (mm x self_v) ;;
  let pow_sum := pow xv 2 in
  sum_pow <- call (mm pow_x pow_v) ;;
  diff <- call (tsub pow_sum sum_pow) ;;
  s <- call (sum_dim 1 diff) ;;
  let out := scale half s in
  ret (unsqueeze_last out).

End WithArith.
Arguments t T : clear implicits.
End SecondOrderInteraction.

(** ** [FactorizationMachine] *)

Module FactorizationMachine.
Section WithArith.

Context {T : Type} `{Arith T}.

Record t : Type := mk {
  n_features   : nat;
  factors      : nat;
  linear       : tensor T;
  second_order : SecondOrderInteraction.t T
}.

Definition set_second_order (so : SecondOrderInteraction.t T) (self : t) : t :=
  mk (n_features self) (factors self) (linear self) so.

Definition forward (x : tensor T) : method t (tensor T) :=
  self_linear <- attr linear ;;
  xl <- call (tmul x self_linear) ;;
  s <- call (sum_dim 1 xl) ;;
  let linear := unsqueeze_last s in
  interaction <- on_submodule second_order set_second_order
                   (SecondOrderInteraction.forward x) ;;
  res <- call (tadd linear interaction) ;;
  ret res.

End WithArith.
Arguments t T : clear implicits.
End FactorizationMachine.

(** ** The embedding models *)

Section DotProduct.

Context {T : Type} `{Arith T}.

(** The rank dispatch both embedding models share:
<<
    if len(users_batch.size()) > 2:
        dot = (users_batch * items_batch).sum(2)
    elif len(users_batch.size()) > 1:
        dot = (users_batch * items_batch).sum(1)
    else:
        dot = (users_batch * items_batch).sum()
>> *)
Definition dot (users_batch items_batch : tensor T) : result (tensor T) :=
  if 2 <? dim users_batch then
    match tmul users_batch items_batch with
    | Ok p => sum_dim 2 p
    | Raise e => Raise e
    end
  else if 1 <? dim users_batch then
    match tmul users_batch items_batch with
    | Ok p => sum_dim 1 p
    | Raise e => Raise e
    end
  else
    match tmul users_batch items_batch with
    | Ok p => Ok (sum_all p)
    | Raise e => Raise e
    end.

(** A lookup followed by [.squeeze()]. *)
Definition lookup_squeeze (w : tensor T) (ids : tensor Z) : result (tensor T) :=
  match embedding zero w ids with
  | Ok e => Ok (squeeze e)
  | Raise e => Raise e
  end.

End DotProduct.

Module MatrixFactorizationModel.
Section WithArith.

Context {T : Type} `{Arith T}.

(** [x], [y], [user_biases] and [item_biases] are the tables of the four
    embedding layers. *)
Record t : Type := mk {
  n_users     : nat;
  n_items     : nat;
  n_factors   : nat;
  sparse      : bool;
  x           : tensor T;
  y           : tensor T;
  user_biases : tensor T;
  item_biases : tensor T
}.

Definition forward (user_ids item_ids : tensor Z) : method t (tensor T) :=
  ub <- attr user_biases ;;
  user_bias <- call (lookup_squeeze ub user_ids) ;;
  ib <- attr item_biases ;;
  item_bias <- call (lookup_squeeze ib item_ids) ;;
  biases_sum <- call (tadd user_bias item_bias) ;;
  self_x <- attr x ;;
  users_batch <- call (lookup_squeeze self_x user_ids) ;;
  self_y <- attr y ;;
  items_batch <- call (lookup_squeeze self_y item_ids) ;;
  d <- call (dot users_batch items_batch) ;;
  call (tadd biases_sum d).

End WithArith.
Arguments t T : clear implicits.
End MatrixFactorizationModel.

Module SimpleMatrixFactorizationModel.
Section WithArith.

Context {T : Type} `{Arith T}.

Record t : Type := mk {
  n_users   : nat;
  n_items   : nat;
  n_factors : nat;
  sparse    : bool;
  x         : tensor T;
  y         : tensor T
}.

Definition forward (user_ids item_ids : tensor Z) : method t (tensor T) :=
  self_x <- attr x ;;
  users_batch <- call (lookup_squeeze self_x user_ids) ;;
  self_y <- attr y ;;
  items_batch <- call (lookup_squeeze self_y item_ids) ;;
  d <- call (dot users_batch items_batch) ;;
  ret d.

End WithArith.
Arguments t T : clear implicits.
End SimpleMatrixFactorizationModel.

(** ** What one output entry of the interaction module is *)

Section Entries.

Context {T : Type} `{Arith T}.

(** The entry of the interaction output for a sample whose features are
    [xr 0], ..., [xr (n-1)], with the operations in the order in which
    [SecondOrderInteraction.forward] performs them; [vd] holds the
    [n * k] elements of [v]. *)
Definition soi_entry (vd : list T) (n k : nat) (xr : nat -> T) : T :=
  mul half
    (sum_upto k (fun f =>
       sub (scalar_pow (sum_upto n (fun l => mul (xr l) (nth (l * k + f) vd zero))) 2)
           (sum_upto n (fun l => mul (scalar_pow (xr l) 2)
                                     (scalar_pow (nth (l * k + f) vd zero) 2))))).

(** The linear term of the factorization machine for such a sample;
    [wd] holds the [n] linear weights. *)
Definition linear_entry (wd : list T) (n : nat) (xr : nat -> T) : T :=
  sum_upto n (fun i => mul (xr i) (nth i wd zero)).

End Entries.

(** ** The interaction in exact arithmetic *)

Open Scope R_scope.

(** The closed form of the interaction of sample [b]:
    0.5 * sum_f [ (sum_i x[b,i] V[i,f])^2 - sum_i x[b,i]^2 V[i,f]^2 ]. *)
Definition closed_form (V x : tensor R) (b : nat) : R :=
  let n := nth 0 (shape V) 0%nat in
  let k := nth 1 (shape V) 0%nat in
  1 / 2 * sum_upto k (fun f =>
            (sum_upto n (fun i => at2 x b i * at2 V i f)) ^ 2
            - sum_upto n (fun i => (at2 x b i) ^ 2 * (at2 V i f) ^ 2)).

(** The inner product of rows [i] and [j] of [V]. *)
Definition row_product (V : tensor R) (i j : nat) : R :=
  sum_upto (nth 1 (shape V) 0%nat) (fun f => at2 V i f * at2 V j f).

(** Following the spec's words: the reference double loop over the pairs
    [i < j], the sum of x_i x_j <V_i, V_j>. *)
Definition pairwise_interaction (V x : tensor R) (b : nat) : R :=
  sum_upto (nth 0 (shape V) 0%nat) (fun j =>
    sum_upto j (fun i => at2 x b i * at2 x b j * row_product V i j)).

Close Scope R_scope.

(** ** What the embedding models are to compute *)

Section Predictions.

Context {T : Type} `{Arith T}.

(** The inner product of row [u] of the table [xd] and row [i] of the
    table [yd], both of width [k]. *)
Definition latent_dot (k : nat) (xd yd : list T) (u i : nat) : T :=
  sum_upto k (fun f => mul (nth (u * k + f) xd zero) (nth (i * k + f) yd zero)).

(** Following the spec's words: one scalar prediction per pair of ids,
    the inner product of the two latent vectors, with the shape of the
    batch of indices. *)
Definition dot_predictions (k : nat) (x y : tensor T)
    (user_ids item_ids : tensor Z) : tensor T :=
  mkTensor (shape user_ids)
    (map (fun p => latent_dot k (data x) (data y) (Z.to_nat (fst p)) (Z.to_nat (snd p)))
         (combine (data user_ids) (data item_ids))).

(** Following the spec's words: the same with the sum of the two biases
    added to each inner product. *)
Definition biased_predictions (k : nat) (x y user_biases item_biases : tensor T)
    (user_ids item_ids : tensor Z) : tensor T :=
  mkTensor (shape user_ids)
    (map (fun p =>
            add (add (nth (Z.to_nat (fst p)) (data user_biases) zero)
                     (nth (Z.to_nat (snd p)) (data item_biases) zero))
                (latent_dot k (data x) (data y) (Z.to_nat (fst p)) (Z.to_nat (snd p))))
         (combine (data user_ids) (data item_ids))).


End Predictions.

(** ** Concrete modules and batches *)

(** Two users and two items with one factor each: the user factors are 1
    and 2, the item factors 3 and 4. *)
Definition simple_model_1 : SimpleMatrixFactorizationModel.t f32 :=
  SimpleMatrixFactorizationModel.mk 2 2 1 true
    (mkTensor [2; 1] [f32_of 1 0; f32_of 2 0])
    (mkTensor [2; 1] [f32_of 3 0; f32_of 4 0]).

(** The same factors, with all biases zero. *)
Definition biased_model_1 : MatrixFactorizationModel.t f32 :=
  MatrixFactorizationModel.mk 2 2 1 true
    (mkTensor [2; 1] [f32_of 1 0; f32_of 2 0])
    (mkTensor [2; 1] [f32_of 3 0; f32_of 4 0])
    (mkTensor [2; 1] [S754_zero false; S754_zero false])
    (mkTensor [2; 1] [S754_zero false; S754_zero false]).

(** Two users and two items with two factors each. *)
Definition simple_model_2 : SimpleMatrixFactorizationModel.t f32 :=
  SimpleMatrixFactorizationModel.mk 2 2 2 true
    (mkTensor [2; 2] [f32_of 1 0; f32_of 2 0; f32_of 3 0; f32_of 4 0])
    (mkTensor [2; 2] [f32_of 5 0; f32_of 6 0; f32_of 7 0; f32_of 8 0]).

(** The batch of the two pairs (0, 0) and (1, 1): both index tensors. *)
Definition ids_01 : tensor Z := mkTensor [2] [0; 1]%Z.

(** A single pair, a batch of one pair and a batch of batches of pairs. *)
Definition ids_pair : tensor Z := mkTensor [] [1]%Z.

Definition ids_one : tensor Z := mkTensor [1] [1]%Z.

Definition ids_2x2 : tensor Z := mkTensor [2; 2] [0; 1; 1; 0]%Z.

(** A batch whose rows are too long for [interaction_2x2]. *)
Definition batch_3x5 : tensor f32 := mkTensor [3; 5] (repeat (f32_of 1 0) 15).


(** The interaction module with one feature, one factor and [v = [[w]]]. *)
Definition interaction_1x1 (w : f32) : SecondOrderInteraction.t f32 :=
  SecondOrderInteraction.mk None 1 1 (mkTensor [1; 1] [w]).

(** The batch of one sample with the one feature [a]. *)
Definition batch_1x1 (a : f32) : tensor f32 := mkTensor [1; 1] [a].

(** An interaction module with two features and two factors, in binary32
    and in exact arithmetic. *)
Definition interaction_2x2 : SecondOrderInteraction.t f32 :=
  SecondOrderInteraction.mk None 2 2
    (mkTensor [2; 2] [f32_of 1 0; f32_of 2 0; f32_of 3 0; f32_of 4 0]).

Definition interaction_2x2_exact : SecondOrderInteraction.t R :=
  SecondOrderInteraction.mk None 2 2 (mkTensor [2; 2] [1; 2; 3; 4]%R).

Definition interaction_1x2_exact : SecondOrderInteraction.t R :=
  SecondOrderInteraction.mk None 1 2 (mkTensor [1; 2] [3; 4]%R).

(** A factorization machine around [interaction_2x2]. *)
Definition machine_2x2 : FactorizationMachine.t f32 :=
  FactorizationMachine.mk 2 2 (mkTensor [2] [f32_of 5 0; f32_of 6 0]) interaction_2x2.

(** Batches of three samples with two features, and of two with one. *)
Definition batch_3x2 : tensor f32 :=
  mkTensor [3; 2] [f32_of 1 0; f32_of 2 0; f32_of 3 0; f32_of 4 0; f32_of 5 0; f32_of 6 0].

Definition batch_3x2_exact : tensor R := mkTensor [3; 2] [1; 2; 3; 4; 5; 6]%R.

Definition batch_2x1_exact : tensor R := mkTensor [2; 1] [5; 7]%R.

(** An all-zero batch, with zeros of both signs. *)
Definition zero_batch_2x2 : tensor f32 :=
  mkTensor [2; 2] [S754_zero false; S754_zero true; S754_zero false; S754_zero false].

(** ** Construction *)

(** The literals [-0.01] and [0.01] of the two constructors. *)
Class Literals (T : Type) : Type := {
  lit_neg_0_01 : T;
  lit_0_01 : T
}.

#[export] Instance RLiterals : Literals R := {|
  lit_neg_0_01 := (- (1 / 100))%R;
  lit_0_01 := (1 / 100)%R
|}.

(** In binary32, 0.01 is 10737418 * 2^-30. *)
#[export] Instance F32Literals : Literals f32 := {|
  lit_neg_0_01 := f32_of (-10737418) (-30);
  lit_0_01 := f32_of 10737418 (-30)
|}.

(** The random number generator of torch: the stream of its draws from
    [0, 1) and the number of draws consumed so far. *)
Record generator (T : Type) : Type := mkGenerator {
  unit_draw : nat -> T;
  consumed : nat
}.

Arguments mkGenerator {T} unit_draw consumed.

Section Construction.

Context {T : Type} `{Arith T} `{Literals T}.

(** [uniform_(lo, hi)] on a fresh tensor of shape [s]: every element is
    overwritten with a draw [u * (hi - lo) + lo]. *)
Definition uniform_ (s : list nat) (lo hi : T) : method (generator T) (tensor T) :=
  fun g =>
    (mkGenerator (unit_draw g) (consumed g + numel s),
     Ok (mkTensor s
           (map (fun i => add (mul (unit_draw g (consumed g + i)) (sub hi lo)) lo)
                (seq 0 (numel s))))).

(** [SecondOrderInteraction.__init__(n_features, n_factors)]. *)
Definition SecondOrderInteraction__init__ (n_features n_factors : nat)
    : method (generator T) (SecondOrderInteraction.t T) :=
  v <- uniform_ [n_features; n_factors] lit_neg_0_01 lit_0_01 ;;
  ret (SecondOrderInteraction.mk None n_features n_factors v).

(** [FactorizationMachine.__init__(n_features, n_factors=10)]; [None]
    stands for an omitted [n_factors]. *)
Definition FactorizationMachine__init__ (n_features : nat) (n_factors : option nat)
    : method (generator T) (FactorizationMachine.t T) :=
  let factors := match n_factors with Some k => k | None => 10 end in
  linear <- uniform_ [n_features] lit_neg_0_01 lit_0_01 ;;
  second_order <- SecondOrderInteraction__init__ n_features factors ;;
  ret (FactorizationMachine.mk n_features factors linear second_order).

End Construction.

(** A generator for the examples: the draws 0, 1/4, 1/2, 3/4, 0, ... *)
Definition quarters : generator f32 :=
  mkGenerator (fun i => f32_of (Z.of_nat (i mod 4)) (-2)) 0.

Definition quarters_exact : generator R :=
  mkGenerator (fun i => (INR (i mod 4) / 4)%R) 0.

(** A factorization machine with three features and two factors, in exact
    arithmetic, one whose [v] is all zero, and a one-hot encoded sample. *)
Definition machine_3x2_exact : FactorizationMachine.t R :=
  FactorizationMachine.mk 3 2 (mkTensor [3] [5; 6; 7]%R)
    (SecondOrderInteraction.mk None 3 2 (mkTensor [3; 2] [1; 2; 3; 4; 5; 6]%R)).

Definition linear_machine_3x2_exact : FactorizationMachine.t R :=
  FactorizationMachine.mk 3 2 (mkTensor [3] [5; 6; 7]%R)
    (SecondOrderInteraction.mk None 3 2 (mkTensor [3; 2] [0; 0; 0; 0; 0; 0]%R)).

Definition one_hot_pair_exact : tensor R := mkTensor [1; 3] [1; 0; 1]%R.

(** The model with biases on the factors of [simple_model_2]. *)
Definition biased_model_2 : MatrixFactorizationModel.t f32 :=
  MatrixFactorizationModel.mk 2 2 2 true
    (mkTensor [2; 2] [f32_of 1 0; f32_of 2 0; f32_of 3 0; f32_of 4 0])
    (mkTensor [2; 2] [f32_of 5 0; f32_of 6 0; f32_of 7 0; f32_of 8 0])
    (mkTensor [2; 1] [f32_of 1 (-1); f32_of 1 (-2)])
    (mkTensor [2; 1] [f32_of 1 (-3); f32_of 1 (-4)]).

(** A single pair, user 1 and item 0. *)
Definition id_one : tensor Z := mkTensor [] [1]%Z.

Definition id_zero : tensor Z := mkTensor [] [0]%Z.


(** The two embedding models on the same factors in exact arithmetic, the
    biases all zero. *)
Definition simple_model_exact : SimpleMatrixFactorizationModel.t R :=
  SimpleMatrixFactorizationModel.mk 2 2 2 true
    (mkTensor [2; 2] [1; 2; 3; 4]%R) (mkTensor [2; 2] [5; 6; 7; 8]%R).

Definition biased_model_exact : MatrixFactorizationModel.t R :=
  MatrixFactorizationModel.mk 2 2 2 true
    (mkTensor [2; 2] [1; 2; 3; 4]%R) (mkTensor [2; 2] [5; 6; 7; 8]%R)
    (mkTensor [2; 1] [0; 0]%R) (mkTensor [2; 1] [0; 0]%R).

(** A batch whose row 1 is row 0 of [batch_3x2]. *)
Definition batch_2x2_shared : tensor f32 :=
  mkTensor [2; 2] [f32_of 5 0; f32_of 6 0; f32_of 1 0; f32_of 2 0].

(** An all-zero batch in exact arithmetic. *)
Definition zero_batch_2x2_exact : tensor R := mkTensor [2; 2] [0; 0; 0; 0]%R.

(** ** Accumulation in binary32 *)

(** [torch.mm] and [sum] do not fix how a sum of products is accumulated
    in floating point: the order of the additions, and whether a product
    is rounded before it is added, are left to the kernel, which is chosen
    by the shapes of the operands.  [mm] and [tsum] above add from left to
    right and round every product; in exact arithmetic every kernel
    computes the same number.  What follows is a second kernel for
    binary32, with a fused multiply-add. *)

(** [a * b + c] with a single rounding. *)
Definition f32_fma (a b c : f32) : f32 :=
  match a, b, c with
  | S754_finite sa ma ea, S754_finite sb mb eb, S754_finite sc mc ec =>
      let ep := (ea + eb)%Z in
      let ez := Z.min ep ec in
      binary_normalize f32_prec f32_emax
        (cond_Zopp (xorb sa sb) (Zpos (fst (shl_align (ma * mb) ep ez)))
         + cond_Zopp sc (Zpos (fst (shl_align mc ec ez))))%Z
        ez false
  | _, _, _ => SFadd f32_prec f32_emax (SFmul f32_prec f32_emax a b) c
  end.

(** [torch.mm(a, b)] with the kernel that accumulates by fused
    multiply-add. *)
Definition mm_fused (a b : tensor f32) : result (tensor f32) :=
  match shape a, shape b with
  | [m; n], [n'; k] =>
      if n =? n' then
        Ok (mkTensor [m; k]
              (tabulate2 m k (fun i j =>
                 fold_left (fun acc l => f32_fma (nth (i * n + l) (data a) zero)
                                                 (nth (l * k + j) (data b) zero) acc)
                           (seq 0 n) zero)))
      else Raise RuntimeError
  | _, _ => Raise RuntimeError
  end.

Section Kernels.

Context {T : Type} `{Arith T}.

(** [SecondOrderInteraction.forward] with the kernel of [torch.mm] as a
    parameter; with [mm] it is [SecondOrderInteraction.forward] itself. *)
Definition second_order_forward_with
    (matmul : tensor T -> tensor T -> result (tensor T)) (x : tensor T)
    : method (SecondOrderInteraction.t T) (tensor T) :=
  b <- call (size0 x) ;;
  assign (SecondOrderInteraction.set_batch_size b) ;;;
  let pow_x := pow x 2 in
  self_v <- attr SecondOrderInteraction.v ;;
  let pow_v := pow self_v 2 in
  xv <- call (matmul x self_v) ;;
  let pow_sum := pow xv 2 in
  sum_pow <- call (matmul pow_x pow_v) ;;
  diff <- call (tsub pow_sum sum_pow) ;;
  s <- call (sum_dim 1 diff) ;;
  let out := scale half s in
  ret (unsqueeze_last out).

(** Following the spec's words: the reference double loop over the pairs
    [i < j], the sum of x_i x_j <V_i, V_j>, computed in the arithmetic
    [T]. *)
Definition pairwise_loop (V x : tensor T) (b : nat) : T :=
  sum_upto (nth 0 (shape V) 0) (fun j =>
    sum_upto j (fun i =>
      mul (mul (at2 x b i) (at2 x b j))
          (sum_upto (nth 1 (shape V) 0) (fun f => mul (at2 V i f) (at2 V j f))))).

End Kernels.

(** Two features of very different size: [v = [[8192], [2^-13]]], and the
    sample [[1, 1]]. *)
Definition interaction_cancelling : SecondOrderInteraction.t f32 :=
  SecondOrderInteraction.mk None 2 1 (mkTensor [2; 1] [f32_of 8192 0; f32_of 1 (-13)]).

Definition batch_ones : tensor f32 := mkTensor [1; 2] [f32_of 1 0; f32_of 1 0].

(** [v = [[4097], [4098]]], the sample [[5, 3]] alone and in a batch of
    two. *)
Definition interaction_2x1 : SecondOrderInteraction.t f32 :=
  SecondOrderInteraction.mk None 2 1 (mkTensor [2; 1] [f32_of 4097 0; f32_of 4098 0]).

Definition batch_5_3_alone : tensor f32 := mkTensor [1; 2] [f32_of 5 0; f32_of 3 0].

Definition batch_5_3_and_another : tensor f32 :=
  mkTensor [2; 2] [f32_of 5 0; f32_of 3 0; f32_of 1 0; f32_of 1 0].

(** ** Index batches of rank 3 and more *)

Section HighRank.

Context {T : Type} `{Arith T}.




End HighRank.

(** Index batches of rank 3 all of whose dimensions have size 1, and with
    a last dimension of size 1. *)
Definition ids_1x1x1 : tensor Z := mkTensor [1; 1; 1] [1]%Z.

Definition ids_2x2x1 : tensor Z := mkTensor [2; 2; 1] [0; 1; 1; 0]%Z.

(** Batches in exact arithmetic that share the row [[4, 5, 6]]. *)
Definition batch_2x3_exact : tensor R := mkTensor [2; 3] [1; 2; 3; 4; 5; 6]%R.

Definition batch_1x3_exact : tensor R := mkTensor [1; 3] [4; 5; 6]%R.

(** * Properties *)

Unset Implicit Arguments.

(** ** Lists and indices *)

Lemma tabulate2_length {A} (m k : nat) (g : nat -> nat -> A) :
  length (tabulate2 m k g) = m * k.
Proof.
  unfold tabulate2.
  generalize 0 at 2.
  induction m as [|m IH]; intros s; simpl; [reflexivity|].
  rewrite length_app, length_map, length_seq, IH. reflexivity.
Qed.

Lemma nth_flat_map_uniform {A B} (g : A -> list B) (n : nat) (a0 : A) (d : B) :
  (forall a, length (g a) = n) ->
  forall (l : list A) (c i : nat),
    c < length l -> i < n ->
    nth (c * n + i) (flat_map g l) d = nth i (g (nth c l a0)) d.
Proof.
  intros Hg l. induction l as [|a l IH]; intros c i Hc Hi; simpl in Hc; [lia|].
  simpl flat_map. destruct c as [|c].
  - simpl. rewrite app_nth1 by (rewrite Hg; exact Hi). reflexivity.
  - rewrite app_nth2 by (rewrite Hg; simpl; lia).
    rewrite Hg. replace (S c * n + i - n) with (c * n + i) by (simpl; lia).
    simpl nth. apply IH; lia.
Qed.

Lemma nth_map_seq {A} (g : nat -> A) (n i : nat) (d : A) :
  i < n -> nth i (map g (seq 0 n)) d = g i.
Proof.
  intros Hi. rewrite (nth_indep _ d (g 0)) by (rewrite length_map, length_seq; exact Hi).
  rewrite map_nth, seq_nth by exact Hi. reflexivity.
Qed.

Lemma nth_tabulate2 {A} (m k : nat) (g : nat -> nat -> A) (i j : nat) (d : A) :
  i < m -> j < k -> nth (i * k + j) (tabulate2 m k g) d = g i j.
Proof.
  intros Hi Hj. unfold tabulate2.
  rewrite (nth_flat_map_uniform (fun i => map (g i) (seq 0 k)) k 0 d).
  - rewrite seq_nth by exact Hi. simpl. apply nth_map_seq. exact Hj.
  - intros a. rewrite length_map, length_seq. reflexivity.
  - rewrite length_seq. exact Hi.
  - exact Hj.
Qed.

Lemma nth_map_in_range {A B} (f : A -> B) (l : list A) (i : nat) (d : A) (d' : B) :
  i < length l -> nth i (map f l) d' = f (nth i l d).
Proof.
  intros Hi. rewrite (nth_indep _ d' (f d)) by (rewrite length_map; exact Hi).
  apply map_nth.
Qed.

Lemma map_seq_ext {A} (f g : nat -> A) (n : nat) :
  (forall i, i < n -> f i = g i) -> map f (seq 0 n) = map g (seq 0 n).
Proof.
  intros E. apply map_ext_in. intros i Hi. apply in_seq in Hi. apply E. lia.
Qed.

Lemma map_nth_seq {A B} (F : A -> B) (l : list A) (d : A) :
  map (fun c => F (nth c l d)) (seq 0 (length l)) = map F l.
Proof.
  induction l as [|a l IH]; [reflexivity|].
  simpl. f_equal. rewrite <- seq_shift, map_map. exact IH.
Qed.



Lemma tabulate2_column {A} (m : nat) (g : nat -> nat -> A) :
  tabulate2 m 1 g = map (fun i => g i 0) (seq 0 m).
Proof.
  unfold tabulate2. rewrite flat_map_concat_map.
  induction (seq 0 m) as [|a l IH]; [reflexivity|].
  simpl. f_equal. exact IH.
Qed.

(** ** Shapes and broadcasting *)

Lemma numel_app (s1 s2 : list nat) : numel (s1 ++ s2) = numel s1 * numel s2.
Proof.
  induction s1 as [|d s1 IH]; simpl; [lia|]. rewrite IH. lia.
Qed.

Lemma numel_rev (s : list nat) : numel (rev s) = numel s.
Proof.
  induction s as [|d s IH]; [reflexivity|].
  simpl. rewrite numel_app, IH. simpl. lia.
Qed.

Lemma broadcast_rev_same (s : list nat) : broadcast_rev s s = Some s.
Proof.
  induction s as [|d s IH]; [reflexivity|].
  simpl. rewrite IH, Nat.eqb_refl. reflexivity.
Qed.

Lemma broadcast_shapes_same (s : list nat) : broadcast_shapes s s = Some s.
Proof.
  unfold broadcast_shapes. rewrite broadcast_rev_same. simpl.
  rewrite rev_involutive. reflexivity.
Qed.

Lemma src_offset_same (s : list nat) :
  forall idx stride, idx < numel s -> src_offset s s idx stride = idx * stride.
Proof.
  induction s as [|d s IH]; intros idx stride Hidx; simpl in *.
  - lia.
  - assert (Hd : d <> 0) by (intros ->; simpl in Hidx; lia).
    rewrite IH by (apply Nat.Div0.div_lt_upper_bound; exact Hidx).
    pose proof (Nat.div_mod_eq idx d) as E.
    destruct (d =? 1) eqn:D1.
    + apply Nat.eqb_eq in D1. subst d. rewrite Nat.div_1_r. lia.
    + rewrite Nat.mul_assoc, (Nat.mul_comm (idx / d)), <- Nat.mul_assoc,
        (Nat.mul_comm (idx mod d)), <- Nat.mul_add_distr_l.
      rewrite (Nat.mul_comm stride). f_equal. lia.
Qed.

Lemma offset_in_same {A} (t : tensor A) (idx : nat) :
  idx < numel (shape t) -> offset_in (shape t) t idx = idx.
Proof.
  intros Hidx. unfold offset_in.
  rewrite src_offset_same by (rewrite numel_rev; exact Hidx). lia.
Qed.

Section TensorLemmas.

Context {T : Type} `{Arith T}.

Lemma binop_same_shape (f : T -> T -> T) (a b : tensor T) :
  shape a = shape b ->
  binop f a b =
  Ok (mkTensor (shape a)
        (map (fun idx => f (nth idx (data a) zero) (nth idx (data b) zero))
             (seq 0 (numel (shape a))))).
Proof.
  intros E. unfold binop. rewrite <- E, broadcast_shapes_same.
  do 2 f_equal. apply map_seq_ext. intros idx Hidx.
  rewrite offset_in_same by exact Hidx.
  replace (offset_in (shape a) b idx) with idx; [reflexivity|].
  rewrite E in *. symmetry. apply offset_in_same. exact Hidx.
Qed.

Lemma sum_upto_S (n : nat) (f : nat -> T) :
  sum_upto (S n) f = add (sum_upto n f) (f n).
Proof.
  unfold sum_upto, tsum. rewrite seq_S, map_app, fold_left_app. reflexivity.
Qed.

Lemma sum_upto_ext (n : nat) (f g : nat -> T) :
  (forall i, i < n -> f i = g i) -> sum_upto n f = sum_upto n g.
Proof.
  intros E. unfold sum_upto. f_equal. apply map_seq_ext. exact E.
Qed.

End TensorLemmas.

(** ** The interaction module, entry by entry *)

Section Interaction.

Context {T : Type} `{Arith T}.

Lemma mm_shapes (a b : tensor T) (m n k : nat) :
  shape a = [m; n] -> shape b = [n; k] ->
  mm a b =
  Ok (mkTensor [m; k]
        (tabulate2 m k (fun i j =>
           sum_upto n (fun l => mul (nth (i * n + l) (data a) zero)
                                    (nth (l * k + j) (data b) zero))))).
Proof.
  intros Ha Hb. unfold mm. rewrite Ha, Hb, Nat.eqb_refl. reflexivity.
Qed.

Lemma sum_dim_1_matrix (t : tensor T) (m k : nat) :
  shape t = [m; k] ->
  sum_dim 1 t =
  Ok (mkTensor [m]
        (map (fun o => sum_upto k (fun j => nth (o * k + j) (data t) zero))
             (seq 0 m))).
Proof.
  intros Ht. unfold sum_dim, dim. rewrite Ht. simpl.
  rewrite Nat.mul_1_r, tabulate2_column. do 2 f_equal.
  apply map_seq_ext. intros o _. apply sum_upto_ext. intros j _.
  f_equal. lia.
Qed.

Lemma soi_forward_spec (self : SecondOrderInteraction.t T) (x : tensor T)
    (B n k : nat) :
  shape x = [B; n] -> well_formed x ->
  shape (SecondOrderInteraction.v self) = [n; k] ->
  well_formed (SecondOrderInteraction.v self) ->
  SecondOrderInteraction.forward x self =
  (SecondOrderInteraction.set_batch_size B self,
   Ok (mkTensor [B; 1]
         (map (fun b =>
                 soi_entry (data (SecondOrderInteraction.v self)) n k
                   (fun i => nth (b * n + i) (data x) zero))
              (seq 0 B)))).
Proof.
  intros Hx Wx Hv Wv.
  unfold well_formed in Wx, Wv. rewrite Hx in Wx. rewrite Hv in Wv.
  simpl in Wx, Wv. rewrite Nat.mul_1_r in Wx, Wv.
  unfold SecondOrderInteraction.forward, bind, call, attr, assign, ret, size0.
  rewrite Hx. simpl.
  rewrite (mm_shapes _ _ _ _ _ Hx Hv).
  rewrite (mm_shapes (pow x 2) (pow (SecondOrderInteraction.v self) 2) _ _ _ Hx Hv).
  unfold tsub. rewrite binop_same_shape by reflexivity.
  rewrite (sum_dim_1_matrix _ B k) by reflexivity.
  unfold unsqueeze_last, scale. simpl.
  do 3 f_equal. rewrite map_map. apply map_seq_ext. intros b Hb.
  unfold soi_entry. f_equal. apply sum_upto_ext. intros f Hf.
  assert (Hbf : b * k + f < B * k) by nia.
  rewrite nth_map_seq by lia.
  rewrite (nth_map_in_range _ _ _ zero) by (rewrite tabulate2_length; exact Hbf).
  rewrite !nth_tabulate2 by assumption.
  simpl. f_equal. apply sum_upto_ext. intros l Hl.
  rewrite (nth_map_in_range _ (data x) _ zero) by nia.
  rewrite (nth_map_in_range _ (data (SecondOrderInteraction.v self)) _ zero) by nia.
  reflexivity.
Qed.

End Interaction.

(** ** Sums of real numbers *)

Section RealSums.

Open Scope R_scope.

Lemma Rsum_0 (f : nat -> R) : sum_upto 0 f = 0.
Proof. reflexivity. Qed.

Lemma Rsum_S (n : nat) (f : nat -> R) : sum_upto (S n) f = sum_upto n f + f n.
Proof. exact (sum_upto_S n f). Qed.

Lemma Rsum_plus (n : nat) (f g : nat -> R) :
  sum_upto n (fun i => f i + g i) = sum_upto n f + sum_upto n g.
Proof.
  induction n as [|n IH]; [rewrite !Rsum_0; ring|].
  rewrite !Rsum_S, IH. ring.
Qed.

Lemma Rsum_minus (n : nat) (f g : nat -> R) :
  sum_upto n (fun i => f i - g i) = sum_upto n f - sum_upto n g.
Proof.
  induction n as [|n IH]; [rewrite !Rsum_0; ring|].
  rewrite !Rsum_S, IH. ring.
Qed.

Lemma Rsum_scale (n : nat) (c : R) (f : nat -> R) :
  sum_upto n (fun i => c * f i) = c * sum_upto n f.
Proof.
  induction n as [|n IH]; [rewrite !Rsum_0; ring|].
  rewrite !Rsum_S, IH. ring.
Qed.

Lemma Rsum_zero (n : nat) (f : nat -> R) :
  (forall i, (i < n)%nat -> f i = 0) -> sum_upto n f = 0.
Proof.
  induction n as [|n IH]; intros Z; [apply Rsum_0|].
  rewrite Rsum_S, IH, Z by auto. ring.
Qed.

Lemma Rsum_swap (n k : nat) (g : nat -> nat -> R) :
  sum_upto k (fun f => sum_upto n (fun j => g f j)) =
  sum_upto n (fun j => sum_upto k (fun f => g f j)).
Proof.
  induction n as [|n IH].
  - apply Rsum_zero. intros. apply Rsum_0.
  - rewrite Rsum_S, <- IH, <- Rsum_plus.
    apply sum_upto_ext. intros f _. apply Rsum_S.
Qed.

(** The square of a sum is the sum of the squares plus twice the sum of
    the products of the pairs. *)
Lemma square_of_sum (n : nat) (a : nat -> R) :
  (sum_upto n a) ^ 2 =
  sum_upto n (fun i => (a i) ^ 2)
  + 2 * sum_upto n (fun j => sum_upto j (fun i => a i * a j)).
Proof.
  induction n as [|n IH]; [rewrite !Rsum_0; ring|].
  rewrite !Rsum_S.
  replace (sum_upto n (fun i => a i * a n)) with (a n * sum_upto n a).
  - replace ((sum_upto n a + a n) ^ 2)
      with ((sum_upto n a) ^ 2 + 2 * (a n * sum_upto n a) + (a n) ^ 2) by ring.
    rewrite IH. ring.
  - rewrite <- Rsum_scale. apply sum_upto_ext. intros. ring.
Qed.

End RealSums.

(** ** The interaction module in exact arithmetic *)

Section ExactInteraction.

Open Scope R_scope.

(** The algebraic identity behind the module: the closed form is the sum
    over the pairs. *)
Lemma closed_form_pairwise (V x : tensor R) (b : nat) :
  closed_form V x b = pairwise_interaction V x b.
Proof.
  unfold closed_form, pairwise_interaction, row_product.
  set (n := nth 0 (shape V) 0%nat). set (k := nth 1 (shape V) 0%nat).
  set (a := fun i f => at2 x b i * at2 V i f).
  transitivity
    (1 / 2 * sum_upto k (fun f =>
       2 * sum_upto n (fun j => sum_upto j (fun i => a i f * a j f)))).
  - f_equal. apply sum_upto_ext. intros f _.
    pose proof (square_of_sum n (fun i => a i f)) as E.
    cbv beta in E. unfold a in E |- *. rewrite E.
    replace (sum_upto n (fun i => at2 x b i ^ 2 * at2 V i f ^ 2))
      with (sum_upto n (fun i => (at2 x b i * at2 V i f) ^ 2)); [ring|].
    apply sum_upto_ext. intros i _. ring.
  - rewrite Rsum_scale.
    rewrite (Rsum_swap n k (fun f j => sum_upto j (fun i => a i f * a j f))).
    replace (1 / 2 * (2 * sum_upto n (fun j => sum_upto k (fun f =>
               sum_upto j (fun i => a i f * a j f)))))
      with (sum_upto n (fun j => sum_upto k (fun f =>
               sum_upto j (fun i => a i f * a j f)))) by field.
    apply sum_upto_ext. intros j _.
    rewrite (Rsum_swap j k (fun f i => a i f * a j f)).
    apply sum_upto_ext. intros i _.
    rewrite <- Rsum_scale. apply sum_upto_ext. intros f _. unfold a. ring.
Qed.

Lemma soi_entry_closed_form (V x : tensor R) (B n k b : nat) :
  shape x = [B; n] -> shape V = [n; k] ->
  soi_entry (data V) n k (fun i => nth (b * n + i)%nat (data x) 0) =
  closed_form V x b.
Proof.
  intros Hx HV. unfold closed_form, soi_entry, at2. rewrite Hx, HV. reflexivity.
Qed.

Lemma soi_forward_exact
    (self : SecondOrderInteraction.t R) (x : tensor R) (B n k : nat) :
  shape x = [B; n] -> well_formed x ->
  shape (SecondOrderInteraction.v self) = [n; k] ->
  well_formed (SecondOrderInteraction.v self) ->
  exists out,
    snd (SecondOrderInteraction.forward x self) = Ok out /\
    shape out = [B; 1%nat] /\
    forall b, (b < B)%nat ->
      at2 out b 0 = closed_form (SecondOrderInteraction.v self) x b.
Proof.
  intros Hx Wx Hv Wv.
  rewrite (soi_forward_spec self x B n k Hx Wx Hv Wv).
  eexists. split; [reflexivity|]. split; [reflexivity|].
  intros b Hb. unfold at2. simpl shape. simpl nth at 2.
  replace (b * 1 + 0)%nat with b by lia.
  simpl data. rewrite nth_map_seq by exact Hb.
  apply (soi_entry_closed_form _ _ B); assumption.
Qed.

(** C1, as amended. For every matrix [V] of shape (n_features, n_factors)
    and every batch [x] of shape (batch_size, n_features), the forward
    pass of the second-order interaction module returns, in exact
    arithmetic, for each sample [b] the closed form
    0.5 * sum_f [ (sum_i x[b,i] V[i,f])^2 - sum_i x[b,i]^2 V[i,f]^2 ],
    which is the reference double-loop sum over the pairs [i < j] of
    x_i x_j <V_i, V_j>. *)
Theorem second_order_closed_form
    (self : SecondOrderInteraction.t R) (x : tensor R) (B n k : nat) :
  shape x = [B; n] -> well_formed x ->
  shape (SecondOrderInteraction.v self) = [n; k] ->
  well_formed (SecondOrderInteraction.v self) ->
  exists out,
    snd (SecondOrderInteraction.forward x self) = Ok out /\
    shape out = [B; 1%nat] /\
    forall b, (b < B)%nat ->
      at2 out b 0 = closed_form (SecondOrderInteraction.v self) x b /\
      at2 out b 0 = pairwise_interaction (SecondOrderInteraction.v self) x b.
Proof.
  intros Hx Wx Hv Wv.
  destruct (soi_forward_exact self x B n k Hx Wx Hv Wv) as (out & E & S & C).
  exists out. split; [exact E|]. split; [exact S|].
  intros b Hb. rewrite <- closed_form_pairwise. split; exact (C b Hb).
Qed.

(** With a single feature there is no pair. *)
Lemma pairwise_single_feature (V x : tensor R) (k b : nat) :
  shape V = [1%nat; k] -> pairwise_interaction V x b = 0.
Proof.
  intros HV. unfold pairwise_interaction. rewrite HV. simpl nth.
  rewrite Rsum_S, !Rsum_0. ring.
Qed.

Lemma at2_all_zero (x : tensor R) (b i : nat) :
  Forall (fun a => a = 0) (data x) -> at2 x b i = 0.
Proof.
  intros Z. unfold at2.
  destruct (Nat.lt_ge_cases (b * nth 1 (shape x) 0 + i) (length (data x)))%nat
    as [Hi|Hi].
  - rewrite Forall_forall in Z. apply Z. apply nth_In. exact Hi.
  - rewrite nth_overflow by exact Hi. reflexivity.
Qed.

Lemma pairwise_all_zero (V x : tensor R) (b : nat) :
  Forall (fun a => a = 0) (data x) -> pairwise_interaction V x b = 0.
Proof.
  intros Z. unfold pairwise_interaction.
  apply Rsum_zero. intros j _. apply Rsum_zero. intros i _.
  rewrite (at2_all_zero x b i Z). ring.
Qed.

(** In exact arithmetic an all-zero batch has an all-zero interaction,
    whatever [V] is. *)
Lemma all_zero_batch_exact
    (self : SecondOrderInteraction.t R) (x : tensor R) (B n k : nat) :
  shape x = [B; n] -> well_formed x ->
  shape (SecondOrderInteraction.v self) = [n; k] ->
  well_formed (SecondOrderInteraction.v self) ->
  Forall (fun a => a = 0) (data x) ->
  exists out,
    snd (SecondOrderInteraction.forward x self) = Ok out /\
    shape out = [B; 1%nat] /\
    forall b, (b < B)%nat -> at2 out b 0 = 0.
Proof.
  intros Hx Wx Hv Wv Z.
  destruct (soi_forward_exact self x B n k Hx Wx Hv Wv) as (out & E & S & C).
  exists out. split; [exact E|]. split; [exact S|].
  intros b Hb. rewrite (C b Hb), closed_form_pairwise.
  apply pairwise_all_zero. exact Z.
Qed.

(** C7, as amended. When n_features = 1, for every matrix [V] of shape
    (1, n_factors) and every batch [x] of shape (batch_size, 1), the
    output of the second-order interaction module is 0 for every sample
    in exact arithmetic: there are no cross terms. *)
Theorem single_feature_interaction_exact
    (self : SecondOrderInteraction.t R) (x : tensor R) (B k : nat) :
  shape x = [B; 1%nat] -> well_formed x ->
  shape (SecondOrderInteraction.v self) = [1%nat; k] ->
  well_formed (SecondOrderInteraction.v self) ->
  exists out,
    snd (SecondOrderInteraction.forward x self) = Ok out /\
    shape out = [B; 1%nat] /\
    forall b, (b < B)%nat -> at2 out b 0 = 0.
Proof.
  intros Hx Wx Hv Wv.
  destruct (soi_forward_exact self x B 1 k Hx Wx Hv Wv) as (out & E & S & C).
  exists out. split; [exact E|]. split; [exact S|].
  intros b Hb. rewrite (C b Hb), closed_form_pairwise.
  apply (pairwise_single_feature _ x k b Hv).
Qed.

End ExactInteraction.

(** ** The factorization machine, entry by entry *)

Section Machine.

Context {T : Type} `{Arith T}.

(** [x * w] for a matrix [x] and a vector [w] as long as its rows: every
    row of [x] is multiplied with [w]. *)
Lemma tmul_rows (x w : tensor T) (B n : nat) :
  shape x = [B; n] -> shape w = [n] ->
  tmul x w =
  Ok (mkTensor [B; n]
        (tabulate2 B n (fun b i => mul (nth (b * n + i) (data x) zero)
                                       (nth i (data w) zero)))).
Proof.
  intros Hx Hw. unfold tmul, binop, broadcast_shapes. rewrite Hx, Hw. simpl.
  rewrite Nat.eqb_refl. simpl. do 2 f_equal.
  rewrite Nat.mul_1_r.
  apply nth_ext with (d := zero) (d' := zero).
  - rewrite length_map, length_seq, tabulate2_length. reflexivity.
  - rewrite length_map, length_seq. intros idx Hidx.
    rewrite nth_map_seq by exact Hidx.
    assert (Hn : n <> 0) by (intros ->; lia).
    pose proof (Nat.div_mod_eq idx n) as E.
    pose proof (Nat.mod_upper_bound idx n Hn) as Hm.
    assert (Hq : idx / n < B) by (apply Nat.Div0.div_lt_upper_bound; lia).
    replace idx with (idx / n * n + idx mod n) at 3 by lia.
    rewrite nth_tabulate2 by assumption.
    f_equal.
    + f_equal.
      replace (offset_in [B; n] x idx) with idx; [lia|].
      symmetry. rewrite <- Hx. apply offset_in_same. rewrite Hx. simpl. lia.
    + f_equal. unfold offset_in. rewrite Hw. simpl.
      destruct (n =? 1) eqn:N1; [|lia].
      apply Nat.eqb_eq in N1. subst n. rewrite Nat.mod_1_r. reflexivity.
Qed.

Lemma fm_forward_spec (self : FactorizationMachine.t T) (x : tensor T)
    (B n k : nat) :
  shape x = [B; n] -> well_formed x ->
  shape (FactorizationMachine.linear self) = [n] ->
  shape (SecondOrderInteraction.v (FactorizationMachine.second_order self)) = [n; k] ->
  well_formed (SecondOrderInteraction.v (FactorizationMachine.second_order self)) ->
  FactorizationMachine.forward x self =
  (FactorizationMachine.set_second_order
     (SecondOrderInteraction.set_batch_size B (FactorizationMachine.second_order self))
     self,
   Ok (mkTensor [B; 1]
         (map (fun b =>
                 add (linear_entry (data (FactorizationMachine.linear self)) n
                        (fun i => nth (b * n + i) (data x) zero))
                     (soi_entry
                        (data (SecondOrderInteraction.v
                                 (FactorizationMachine.second_order self))) n k
                        (fun i => nth (b * n + i) (data x) zero)))
              (seq 0 B)))).
Proof.
  intros Hx Wx Hw Hv Wv.
  unfold FactorizationMachine.forward, bind, call, attr, ret, on_submodule.
  rewrite (tmul_rows _ _ _ _ Hx Hw).
  rewrite (sum_dim_1_matrix _ B n) by reflexivity.
  rewrite (soi_forward_spec _ _ _ _ _ Hx Wx Hv Wv).
  unfold tadd. rewrite binop_same_shape by reflexivity.
  simpl. rewrite Nat.mul_1_r. do 3 f_equal.
  apply map_seq_ext. intros b Hb.
  rewrite !nth_map_seq by exact Hb.
  f_equal. unfold linear_entry. apply sum_upto_ext. intros i Hi.
  rewrite nth_tabulate2 by assumption. reflexivity.
Qed.

End Machine.

(** ** Rows of a batch *)

Section Rows.

Context {T : Type} `{Arith T}.

Lemma length_flat_map_uniform {A B} (g : A -> list B) (n : nat) (l : list A) :
  (forall a, length (g a) = n) -> length (flat_map g l) = length l * n.
Proof.
  intros Hg. induction l as [|a l IH]; [reflexivity|].
  simpl. rewrite length_app, Hg, IH. reflexivity.
Qed.

Lemma select_rows_matrix (bs : list nat) (x : tensor T) (B n : nat) :
  shape x = [B; n] ->
  select_rows bs x =
  mkTensor [length bs; n]
    (flat_map (fun b => map (fun i => nth (b * n + i) (data x) zero) (seq 0 n)) bs).
Proof.
  intros Hx. unfold select_rows, at2. rewrite Hx. reflexivity.
Qed.

Lemma select_rows_well_formed (bs : list nat) (x : tensor T) (B n : nat) :
  shape x = [B; n] -> well_formed (select_rows bs x).
Proof.
  intros Hx. rewrite (select_rows_matrix bs x B n Hx). unfold well_formed. simpl.
  rewrite (length_flat_map_uniform _ n).
  - lia.
  - intros b. rewrite length_map, length_seq. reflexivity.
Qed.

Lemma nth_select_rows (bs : list nat) (x : tensor T) (B n c i : nat) :
  shape x = [B; n] -> c < length bs -> i < n ->
  nth (c * n + i) (data (select_rows bs x)) zero =
  nth (nth c bs 0 * n + i) (data x) zero.
Proof.
  intros Hx Hc Hi. rewrite (select_rows_matrix bs x B n Hx). simpl.
  rewrite (nth_flat_map_uniform _ n 0 zero).
  - exact (nth_map_seq (fun j => nth (nth c bs 0 * n + j) (data x) zero) n i zero Hi).
  - intros b. rewrite length_map, length_seq. reflexivity.
  - exact Hc.
  - exact Hi.
Qed.

(** Selecting rows of a column whose entry [b] is [G b]. *)
Lemma select_rows_column (bs : list nat) (B : nat) (G : nat -> T) :
  Forall (fun b => b < B) bs ->
  select_rows bs (mkTensor [B; 1] (map G (seq 0 B))) =
  mkTensor [length bs; 1] (map G bs).
Proof.
  intros Hbs. unfold select_rows, at2. simpl. f_equal.
  induction Hbs as [|b bs Hb _ IH]; [reflexivity|].
  simpl. f_equal; [|exact IH].
  replace (b * 1 + 0) with b by lia. exact (nth_map_seq G B b zero Hb).
Qed.

(** A forward pass that computes entry [b] of its output column from row
    [b] of the batch alone commutes with the selection of rows. *)
Lemma rows_entrywise (E : (nat -> T) -> T) (n : nat) (x : tensor T)
    (B : nat) (bs : list nat) :
  (forall xr xr', (forall i, i < n -> xr i = xr' i) -> E xr = E xr') ->
  shape x = [B; n] ->
  Forall (fun b => b < B) bs ->
  mkTensor [length bs; 1]
    (map (fun c => E (fun i => nth (c * n + i) (data (select_rows bs x)) zero))
         (seq 0 (length bs))) =
  select_rows bs
    (mkTensor [B; 1]
       (map (fun b => E (fun i => nth (b * n + i) (data x) zero)) (seq 0 B))).
Proof.
  intros Eext Hx Hbs.
  rewrite (select_rows_column bs B
             (fun b => E (fun i => nth (b * n + i) (data x) zero)) Hbs).
  f_equal.
  rewrite <- (map_nth_seq
                (fun b => E (fun i => nth (b * n + i) (data x) zero)) bs 0).
  apply map_seq_ext. intros c Hc. apply Eext. intros i Hi.
  apply (nth_select_rows bs x B n c i); assumption.
Qed.

Lemma soi_entry_ext (vd : list T) (n k : nat) (xr xr' : nat -> T) :
  (forall i, i < n -> xr i = xr' i) ->
  soi_entry vd n k xr = soi_entry vd n k xr'.
Proof.
  intros E. unfold soi_entry. f_equal. apply sum_upto_ext. intros f _.
  f_equal.
  - f_equal. apply sum_upto_ext. intros i Hi. rewrite (E i Hi). reflexivity.
  - apply sum_upto_ext. intros i Hi. rewrite (E i Hi). reflexivity.
Qed.

Lemma linear_entry_ext (wd : list T) (n : nat) (xr xr' : nat -> T) :
  (forall i, i < n -> xr i = xr' i) ->
  linear_entry wd n xr = linear_entry wd n xr'.
Proof.
  intros E. unfold linear_entry. apply sum_upto_ext. intros i Hi.
  rewrite (E i Hi). reflexivity.
Qed.

End Rows.

(** ** Shape, composition and independence of the samples *)

(** C2. For a batch [x] of shape (batch_size, n_features) and a matrix [v]
    of shape (n_features, n_factors), with n_features, n_factors and
    batch_size at least 1, the forward pass of the second-order
    interaction module returns a tensor of shape (batch_size, 1). *)
Theorem second_order_output_shape {T : Type} `{Arith T}
    (self : SecondOrderInteraction.t T) (x : tensor T) (B n k : nat) :
  1 <= n -> 1 <= k -> 1 <= B ->
  shape x = [B; n] -> well_formed x ->
  shape (SecondOrderInteraction.v self) = [n; k] ->
  well_formed (SecondOrderInteraction.v self) ->
  exists out,
    snd (SecondOrderInteraction.forward x self) = Ok out /\
    shape out = [B; 1] /\ well_formed out.
Proof.
  intros _ _ _ Hx Wx Hv Wv.
  rewrite (soi_forward_spec self x B n k Hx Wx Hv Wv).
  eexists. split; [reflexivity|]. split; [reflexivity|].
  unfold well_formed. simpl. rewrite length_map, length_seq. lia.
Qed.

(** C5. For a batch [x] of shape (batch_size, n_features), the forward
    pass of the factorization machine returns the sum of the linear term
    and the interaction term: its output has shape (batch_size, 1), and
    its entry for sample [b] is the sum over the features of
    [x[b,i] * linear[i]] plus the entry for [b] of the output of the owned
    second-order interaction module on the same [x]. *)
Theorem factorization_machine_forward {T : Type} `{Arith T}
    (self : FactorizationMachine.t T) (x : tensor T) (B n k : nat) :
  shape x = [B; n] -> well_formed x ->
  shape (FactorizationMachine.linear self) = [n] ->
  shape (SecondOrderInteraction.v (FactorizationMachine.second_order self)) = [n; k] ->
  well_formed (SecondOrderInteraction.v (FactorizationMachine.second_order self)) ->
  exists interaction out,
    snd (SecondOrderInteraction.forward x (FactorizationMachine.second_order self))
      = Ok interaction /\
    snd (FactorizationMachine.forward x self) = Ok out /\
    shape interaction = [B; 1] /\
    shape out = [B; 1] /\
    forall b, b < B ->
      at2 out b 0 =
      add (sum_upto n (fun i =>
             mul (at2 x b i) (nth i (data (FactorizationMachine.linear self)) zero)))
          (at2 interaction b 0).
Proof.
  intros Hx Wx Hw Hv Wv.
  rewrite (fm_forward_spec self x B n k Hx Wx Hw Hv Wv).
  rewrite (soi_forward_spec _ x B n k Hx Wx Hv Wv).
  do 2 eexists. repeat (split; [reflexivity|]).
  intros b Hb. unfold at2. simpl. rewrite Hx. simpl.
  replace (b * 1 + 0) with b by lia.
  rewrite !nth_map_seq by exact Hb. reflexivity.
Qed.

(** The two lemmas that follow are about [mm] as it is defined here, which
    accumulates a row in the same way whatever the size of the batch.  In
    exact arithmetic every kernel of [torch.mm] computes the same number,
    and the instance at the real numbers is a statement about the program;
    in binary32 it is not, since [torch.mm] chooses its kernel by the
    shape of the batch. *)
Lemma second_order_rows {T : Type} `{Arith T}
    (self : SecondOrderInteraction.t T) (x : tensor T) (B n k : nat)
    (bs : list nat) :
  shape x = [B; n] -> well_formed x ->
  shape (SecondOrderInteraction.v self) = [n; k] ->
  well_formed (SecondOrderInteraction.v self) ->
  Forall (fun b => b < B) bs ->
  exists out,
    snd (SecondOrderInteraction.forward x self) = Ok out /\
    snd (SecondOrderInteraction.forward (select_rows bs x) self)
      = Ok (select_rows bs out).
Proof.
  intros Hx Wx Hv Wv Hbs.
  rewrite (soi_forward_spec self x B n k Hx Wx Hv Wv).
  rewrite (soi_forward_spec self (select_rows bs x) (length bs) n k
             (f_equal (@shape T) (select_rows_matrix bs x B n Hx))
             (select_rows_well_formed bs x B n Hx) Hv Wv).
  eexists. split; [reflexivity|]. simpl. f_equal.
  apply (rows_entrywise (soi_entry (data (SecondOrderInteraction.v self)) n k) n x B bs);
    [apply soi_entry_ext | exact Hx | exact Hbs].
Qed.

Lemma machine_rows {T : Type} `{Arith T}
    (self : FactorizationMachine.t T) (x : tensor T) (B n k : nat)
    (bs : list nat) :
  shape x = [B; n] -> well_formed x ->
  shape (FactorizationMachine.linear self) = [n] ->
  shape (SecondOrderInteraction.v (FactorizationMachine.second_order self)) = [n; k] ->
  well_formed (SecondOrderInteraction.v (FactorizationMachine.second_order self)) ->
  Forall (fun b => b < B) bs ->
  exists out,
    snd (FactorizationMachine.forward x self) = Ok out /\
    snd (FactorizationMachine.forward (select_rows bs x) self)
      = Ok (select_rows bs out).
Proof.
  intros Hx Wx Hw Hv Wv Hbs.
  rewrite (fm_forward_spec self x B n k Hx Wx Hw Hv Wv).
  rewrite (fm_forward_spec self (select_rows bs x) (length bs) n k
             (f_equal (@shape T) (select_rows_matrix bs x B n Hx))
             (select_rows_well_formed bs x B n Hx) Hw Hv Wv).
  eexists. split; [reflexivity|]. simpl. f_equal.
  apply (rows_entrywise
           (fun xr => add (linear_entry (data (FactorizationMachine.linear self)) n xr)
                          (soi_entry
                             (data (SecondOrderInteraction.v
                                      (FactorizationMachine.second_order self)))
                             n k xr))
           n x B bs); [| exact Hx | exact Hbs].
  intros xr xr' E.
  rewrite (linear_entry_ext _ n xr xr' E), (soi_entry_ext _ n k xr xr' E).
  reflexivity.
Qed.

(** ** Parameters are not written *)

(** C9. No forward pass writes a parameter array.  The two embedding
    models leave the whole object as it was; the factorization machine and
    the interaction module leave [linear] and [v] as they were (the only
    attribute written is the record [batch_size] of the interaction
    module).  This holds whether the call returns or raises. *)
Theorem forward_preserves_parameters {T : Type} `{Arith T} :
  (forall (self : MatrixFactorizationModel.t T) (user_ids item_ids : tensor Z),
     fst (MatrixFactorizationModel.forward user_ids item_ids self) = self) /\
  (forall (self : SimpleMatrixFactorizationModel.t T) (user_ids item_ids : tensor Z),
     fst (SimpleMatrixFactorizationModel.forward user_ids item_ids self) = self) /\
  (forall (self : FactorizationMachine.t T) (x : tensor T),
     let self' := fst (FactorizationMachine.forward x self) in
     FactorizationMachine.linear self' = FactorizationMachine.linear self /\
     SecondOrderInteraction.v (FactorizationMachine.second_order self') =
     SecondOrderInteraction.v (FactorizationMachine.second_order self)) /\
  (forall (self : SecondOrderInteraction.t T) (x : tensor T),
     SecondOrderInteraction.v (fst (SecondOrderInteraction.forward x self)) =
     SecondOrderInteraction.v self).
Proof.
  assert (SOI : forall (self : SecondOrderInteraction.t T) (x : tensor T),
             SecondOrderInteraction.v (fst (SecondOrderInteraction.forward x self)) =
             SecondOrderInteraction.v self).
  { intros self x.
    unfold SecondOrderInteraction.forward, bind, call, attr, assign, ret.
    repeat match goal with
           | |- context [match ?r with Ok _ => _ | Raise _ => _ end] => destruct r
           end; reflexivity. }
  repeat split.
  - intros self u i.
    unfold MatrixFactorizationModel.forward, bind, call, attr, ret.
    repeat match goal with
           | |- context [match ?r with Ok _ => _ | Raise _ => _ end] => destruct r
           end; reflexivity.
  - intros self u i.
    unfold SimpleMatrixFactorizationModel.forward, bind, call, attr, ret.
    repeat match goal with
           | |- context [match ?r with Ok _ => _ | Raise _ => _ end] => destruct r
           end; reflexivity.
  - unfold FactorizationMachine.forward, bind, call, attr, ret, on_submodule.
    repeat match goal with
           | |- context [match ?r with Ok _ => _ | Raise _ => _ end] => destruct r
           end; try reflexivity;
    destruct (SecondOrderInteraction.forward x (FactorizationMachine.second_order self))
      as [so [r|e]]; simpl;
    repeat match goal with
           | |- context [match ?r with Ok _ => _ | Raise _ => _ end] => destruct r
           end; reflexivity.
  - unfold FactorizationMachine.forward, bind, call, attr, ret, on_submodule.
    repeat match goal with
           | |- context [match ?r with Ok _ => _ | Raise _ => _ end] => destruct r
           end; try reflexivity;
    pose proof (SOI (FactorizationMachine.second_order self) x) as E;
    destruct (SecondOrderInteraction.forward x (FactorizationMachine.second_order self))
      as [so [r|e]]; simpl in *;
    repeat match goal with
           | |- context [match ?r with Ok _ => _ | Raise _ => _ end] => destruct r
           end; exact E.
  - exact SOI.
Qed.

(** ** Zeros in binary32 *)

Section Binary32.

Lemma f32_one : (one : f32) = S754_finite false 8388608 (-23).
Proof. reflexivity. Qed.

Lemma f32_half : (half : f32) = S754_finite false 8388608 (-24).
Proof. reflexivity. Qed.

Lemma f32_is_zero_inv (a : f32) :
  f32_is_zero a = true -> exists s, a = S754_zero s.
Proof.
  destruct a; simpl; intros E; try discriminate. eexists. reflexivity.
Qed.

Lemma f32_add_zero (s : bool) : add (S754_zero false : f32) (S754_zero s) = S754_zero false.
Proof. destruct s; reflexivity. Qed.

Lemma f32_mul_zero_finite (a b : f32) :
  f32_is_zero a = true -> f32_is_finite b = true -> f32_is_zero (mul a b) = true.
Proof.
  intros Za Fb. destruct (f32_is_zero_inv a Za) as [s ->].
  destruct b; simpl in *; try discriminate; reflexivity.
Qed.

Lemma f32_square_zero (a : f32) :
  f32_is_zero a = true -> scalar_pow a 2 = S754_zero false.
Proof.
  intros Za. destruct (f32_is_zero_inv a Za) as [s ->].
  destruct s; reflexivity.
Qed.

Lemma f32_finite_square (a : f32) :
  f32_is_finite (scalar_pow a 2) = true -> f32_is_finite a = true.
Proof.
  destruct a; intros E; try reflexivity; cbv in E; discriminate.
Qed.

Lemma f32_sum_zero (n : nat) (f : nat -> f32) :
  (forall i, i < n -> f32_is_zero (f i) = true) ->
  sum_upto n f = S754_zero false.
Proof.
  induction n as [|n IH]; intros Z; [reflexivity|].
  rewrite sum_upto_S, IH by auto.
  destruct (f32_is_zero_inv (f n) (Z n (Nat.lt_succ_diag_r n))) as [s ->].
  apply f32_add_zero.
Qed.

Lemma f32_soi_entry_zero (vd : list f32) (n k : nat) (xr : nat -> f32) :
  (forall i, i < n -> f32_is_zero (xr i) = true) ->
  Forall (fun a => f32_is_finite (scalar_pow a 2) = true) vd ->
  soi_entry vd n k xr = S754_zero false.
Proof.
  intros Zx Fv.
  assert (Fnth : forall i, f32_is_finite (scalar_pow (nth i vd zero) 2) = true).
  { intros i. destruct (Nat.lt_ge_cases i (length vd)) as [Hi|Hi].
    - rewrite Forall_forall in Fv. apply Fv. apply nth_In. exact Hi.
    - rewrite nth_overflow by exact Hi. reflexivity. }
  unfold soi_entry.
  rewrite (f32_sum_zero k); [rewrite f32_half; reflexivity|].
  intros f _.
  rewrite (f32_sum_zero n (fun l => mul (xr l) (nth (l * k + f) vd zero))).
  - rewrite (f32_sum_zero n); [reflexivity|].
    intros l Hl. apply f32_mul_zero_finite.
    + rewrite (f32_square_zero _ (Zx l Hl)). reflexivity.
    + apply Fnth.
  - intros l Hl. apply f32_mul_zero_finite; [exact (Zx l Hl)|].
    apply f32_finite_square, Fnth.
Qed.

End Binary32.

(** ** All-zero batches and single features in binary32 *)

Lemma map_const_seq {A} (a : A) (g : nat -> A) (n : nat) :
  (forall i, i < n -> g i = a) -> map g (seq 0 n) = repeat a n.
Proof.
  intros E. rewrite (map_seq_ext g (fun _ => a) n E).
  generalize 0. induction n as [|n IH]; intros s; [reflexivity|].
  simpl. f_equal. apply IH. intros i Hi. apply E. lia.
Qed.

(** C6, as amended. For every [V] whose element-wise square
    [torch.pow(V, 2)] has no infinite and no NaN entry, and every batch
    [x] all of whose entries are zero, the output of the second-order
    interaction module in binary32 is exactly 0 for every sample. *)
Theorem zero_batch_interaction
    (self : SecondOrderInteraction.t f32) (x : tensor f32) (B n k : nat) :
  shape x = [B; n] -> well_formed x ->
  shape (SecondOrderInteraction.v self) = [n; k] ->
  well_formed (SecondOrderInteraction.v self) ->
  forallb f32_is_zero (data x) = true ->
  forallb f32_is_finite (data (pow (SecondOrderInteraction.v self) 2)) = true ->
  exists out,
    snd (SecondOrderInteraction.forward x self) = Ok out /\
    shape out = [B; 1] /\
    data out = repeat (S754_zero false) B.
Proof.
  intros Hx Wx Hv Wv Zx Fv.
  rewrite (soi_forward_spec self x B n k Hx Wx Hv Wv).
  eexists. split; [reflexivity|]. split; [reflexivity|].
  simpl. apply map_const_seq. intros b _.
  apply f32_soi_entry_zero.
  - intros i _. rewrite forallb_forall in Zx.
    destruct (Nat.lt_ge_cases (b * n + i) (length (data x))) as [Hi|Hi].
    + apply Zx. apply nth_In. exact Hi.
    + rewrite nth_overflow by exact Hi. reflexivity.
  - simpl in Fv. rewrite forallb_forall in Fv. apply Forall_forall.
    intros a Ha. apply Fv. apply in_map_iff. exists a. split; [reflexivity|exact Ha].
Qed.

Lemma zero_batch_interaction_witness :
  exists out,
    snd (SecondOrderInteraction.forward zero_batch_2x2 interaction_2x2) = Ok out /\
    shape out = [2; 1] /\
    data out = repeat (S754_zero false) 2.
Proof.
  apply (zero_batch_interaction interaction_2x2 zero_batch_2x2 2 2 2); reflexivity.
Defined.

(** The claim C6 as it stands fails where a square overflows: with
    [V = [[2^64]]], a finite binary32 number, [torch.pow(V, 2)] is
    infinite and the all-zero batch [[0]] is sent to NaN. *)
Lemma zero_batch_overflow :
  f32_is_finite (f32_of 1 64) = true /\
  snd (SecondOrderInteraction.forward (batch_1x1 (S754_zero false))
         (interaction_1x1 (f32_of 1 64)))
    = Ok (mkTensor [1; 1] [S754_nan]).
Proof. split; reflexivity. Qed.

(** The claim C7 as it stands fails in binary32: with the single feature
    [x = [[3]]] and [V = [[4097]]], the square of the rounded product,
    151068688, and the rounded product of the squares, 151068672, differ
    and the output is 8.  With [x = [[5]]] and [V] the binary32 number
    nearest to 0.01, which is 10737418 * 2^-30, the output is -2^-33. *)
Lemma single_feature_residue :
  (snd (SecondOrderInteraction.forward (batch_1x1 (f32_of 3 0))
          (interaction_1x1 (f32_of 4097 0)))
     = Ok (mkTensor [1; 1] [f32_of 8 0]) /\
   f32_is_zero (f32_of 8 0) = false) /\
  (snd (SecondOrderInteraction.forward (batch_1x1 (f32_of 5 0))
          (interaction_1x1 (f32_of 10737418 (-30))))
     = Ok (mkTensor [1; 1] [f32_of (-1) (-33)]) /\
   f32_is_zero (f32_of (-1) (-33)) = false).
Proof. repeat split; reflexivity. Qed.

(** ** Instances at concrete inputs *)

Lemma second_order_closed_form_witness :
  exists out,
    snd (SecondOrderInteraction.forward batch_3x2_exact interaction_2x2_exact) = Ok out /\
    shape out = [3; 1] /\
    forall b, b < 3 ->
      at2 out b 0
        = closed_form (SecondOrderInteraction.v interaction_2x2_exact) batch_3x2_exact b /\
      at2 out b 0
        = pairwise_interaction (SecondOrderInteraction.v interaction_2x2_exact)
            batch_3x2_exact b.
Proof.
  apply (second_order_closed_form interaction_2x2_exact batch_3x2_exact 3 2 2);
    reflexivity.
Defined.

Lemma single_feature_interaction_exact_witness :
  exists out,
    snd (SecondOrderInteraction.forward batch_2x1_exact interaction_1x2_exact) = Ok out /\
    shape out = [2; 1] /\
    forall b, b < 2 -> at2 out b 0 = 0%R.
Proof.
  apply (single_feature_interaction_exact interaction_1x2_exact batch_2x1_exact 2 2);
    reflexivity.
Defined.

Lemma second_order_output_shape_witness :
  exists out,
    snd (SecondOrderInteraction.forward batch_3x2 interaction_2x2) = Ok out /\
    shape out = [3; 1] /\ well_formed out.
Proof.
  apply (second_order_output_shape interaction_2x2 batch_3x2 3 2 2);
    solve [reflexivity | lia].
Defined.

Lemma factorization_machine_forward_witness :
  exists interaction out,
    snd (SecondOrderInteraction.forward batch_3x2
           (FactorizationMachine.second_order machine_2x2)) = Ok interaction /\
    snd (FactorizationMachine.forward batch_3x2 machine_2x2) = Ok out /\
    shape interaction = [3; 1] /\
    shape out = [3; 1] /\
    forall b, b < 3 ->
      at2 out b 0 =
      add (sum_upto 2 (fun i =>
             mul (at2 batch_3x2 b i)
                 (nth i (data (FactorizationMachine.linear machine_2x2)) zero)))
          (at2 interaction b 0).
Proof.
  apply (factorization_machine_forward machine_2x2 batch_3x2 3 2 2); reflexivity.
Defined.

(** ** The embedding models *)

(** C3, at the failing input.  With one factor, the batch of the two
    pairs (0, 0) and (1, 1) is to yield the two predictions 1 * 3 = 3 and
    2 * 4 = 8, in the shape (2,) of the batch.  [squeeze] drops the factor
    axis of the gathered (2, 1) tensors, the rank dispatch then sums the
    whole batch, and the forward pass returns the single 0-dim number
    3 + 8 = 11. *)
Lemma one_factor_batch_is_summed :
  snd (SimpleMatrixFactorizationModel.forward ids_01 ids_01 simple_model_1)
    = Ok (mkTensor [] [f32_of 11 0]) /\
  dot_predictions 1 (SimpleMatrixFactorizationModel.x simple_model_1)
    (SimpleMatrixFactorizationModel.y simple_model_1) ids_01 ids_01
    = mkTensor [2] [f32_of 3 0; f32_of 8 0].
Proof. split; reflexivity. Qed.

(** C8, at the failing input.  With one factor and all biases zero, the
    model with biases returns the tensor [11, 11] of shape (2,), the sum
    of the batch broadcast against the biases, and the model without
    biases the 0-dim number 11: the two outputs differ. *)
Lemma zero_biases_change_the_shape :
  snd (MatrixFactorizationModel.forward ids_01 ids_01 biased_model_1)
    = Ok (mkTensor [2] [f32_of 11 0; f32_of 11 0]) /\
  snd (SimpleMatrixFactorizationModel.forward ids_01 ids_01 simple_model_1)
    = Ok (mkTensor [] [f32_of 11 0]) /\
  snd (MatrixFactorizationModel.forward ids_01 ids_01 biased_model_1)
    <> snd (SimpleMatrixFactorizationModel.forward ids_01 ids_01 simple_model_1).
Proof.
  split; [reflexivity|]. split; [reflexivity|].
  vm_compute. discriminate.
Qed.


(** ** The embedding models on a batch of pairs *)

Section Batches.

Context {T : Type} `{Arith T}.

(** Gathering rows of width at least 2 for a batch of at least 2 ids:
    [squeeze] finds no dimension to drop. *)
Lemma lookup_squeeze_batch (w : tensor T) (ids : tensor Z) (n k B : nat) :
  shape w = [n; k] -> shape ids = [B] -> 2 <= B -> 2 <= k ->
  valid_ids n ids = true ->
  lookup_squeeze w ids =
  Ok (mkTensor [B; k]
        (flat_map (fun i => table_row zero k (data w) (Z.to_nat i)) (data ids))).
Proof.
  intros Hw Hi HB Hk V. unfold lookup_squeeze, embedding.
  rewrite Hw, V, Hi. unfold squeeze. simpl.
  destruct B as [|[|B]]; try lia. destruct k as [|[|k]]; try lia. reflexivity.
Qed.

(** Gathering biases, rows of width 1: [squeeze] drops the last
    dimension. *)
Lemma lookup_squeeze_bias (w : tensor T) (ids : tensor Z) (n B : nat) :
  shape w = [n; 1] -> shape ids = [B] -> 2 <= B ->
  valid_ids n ids = true ->
  lookup_squeeze w ids =
  Ok (mkTensor [B] (map (fun i => nth (Z.to_nat i) (data w) zero) (data ids))).
Proof.
  intros Hw Hi HB V. unfold lookup_squeeze, embedding.
  rewrite Hw, V, Hi. unfold squeeze. simpl.
  destruct B as [|[|B]]; try lia. simpl. do 2 f_equal. clear V.
  induction (data ids) as [|i l IH]; [reflexivity|].
  simpl. f_equal; [f_equal; lia | exact IH].
Qed.

Lemma nth_gathered (wd : list T) (ids : list Z) (k o j : nat) :
  o < length ids -> j < k ->
  nth (o * k + j) (flat_map (fun i => table_row zero k wd (Z.to_nat i)) ids) zero =
  nth (Z.to_nat (nth o ids 0%Z) * k + j) wd zero.
Proof.
  intros Ho Hj.
  rewrite (nth_flat_map_uniform _ k 0%Z zero).
  - unfold table_row.
    exact (nth_map_seq (fun j => nth (Z.to_nat (nth o ids 0%Z) * k + j) wd zero) k j zero Hj).
  - intros a. unfold table_row. rewrite length_map, length_seq. reflexivity.
  - exact Ho.
  - exact Hj.
Qed.

(** The rank dispatch on two gathered batches of rank 2: one inner
    product per pair. *)
Lemma dot_batch (xd yd : list T) (uids iids : list Z) (k B : nat) :
  length uids = B -> length iids = B ->
  dot (mkTensor [B; k] (flat_map (fun i => table_row zero k xd (Z.to_nat i)) uids))
      (mkTensor [B; k] (flat_map (fun i => table_row zero k yd (Z.to_nat i)) iids)) =
  Ok (mkTensor [B]
        (map (fun p => latent_dot k xd yd (Z.to_nat (fst p)) (Z.to_nat (snd p)))
             (combine uids iids))).
Proof.
  intros Lu Li. unfold dot, dim. simpl.
  unfold tmul. rewrite binop_same_shape by reflexivity.
  rewrite (sum_dim_1_matrix _ B k) by reflexivity.
  do 2 f_equal. simpl.
  rewrite <- (map_nth_seq
                (fun p => latent_dot k xd yd (Z.to_nat (fst p)) (Z.to_nat (snd p)))
                (combine uids iids) (0%Z, 0%Z)).
  rewrite length_combine, Lu, Li, Nat.min_id.
  apply map_seq_ext. intros o Ho.
  rewrite combine_nth by congruence. simpl.
  unfold latent_dot. apply sum_upto_ext. intros j Hj.
  rewrite nth_map_seq by nia.
  rewrite !nth_gathered by (assumption || lia). reflexivity.
Qed.

(** On a batch of at least two pairs, with at least two factors, the
    model without biases returns the inner product of the two latent
    vectors of every pair, in the shape of the batch. *)
Lemma simple_forward_batch (self : SimpleMatrixFactorizationModel.t T)
    (user_ids item_ids : tensor Z) (nu ni k B : nat) :
  shape (SimpleMatrixFactorizationModel.x self) = [nu; k] ->
  shape (SimpleMatrixFactorizationModel.y self) = [ni; k] ->
  shape user_ids = [B] -> shape item_ids = [B] ->
  length (data user_ids) = B -> length (data item_ids) = B ->
  2 <= B -> 2 <= k ->
  valid_ids nu user_ids = true -> valid_ids ni item_ids = true ->
  snd (SimpleMatrixFactorizationModel.forward user_ids item_ids self) =
  Ok (dot_predictions k (SimpleMatrixFactorizationModel.x self)
        (SimpleMatrixFactorizationModel.y self) user_ids item_ids).
Proof.
  intros Hx Hy Hu Hi Lu Li HB Hk Vu Vi.
  unfold SimpleMatrixFactorizationModel.forward, bind, call, attr, ret.
  rewrite (lookup_squeeze_batch _ _ nu k B Hx Hu HB Hk Vu).
  rewrite (lookup_squeeze_batch _ _ ni k B Hy Hi HB Hk Vi).
  rewrite (dot_batch _ _ _ _ k B Lu Li).
  unfold dot_predictions. rewrite Hu. reflexivity.
Qed.

(** The same for the model with biases: the sum of the two biases is
    added to every inner product. *)
Lemma biased_forward_batch (self : MatrixFactorizationModel.t T)
    (user_ids item_ids : tensor Z) (nu ni k B : nat) :
  shape (MatrixFactorizationModel.x self) = [nu; k] ->
  shape (MatrixFactorizationModel.y self) = [ni; k] ->
  shape (MatrixFactorizationModel.user_biases self) = [nu; 1] ->
  shape (MatrixFactorizationModel.item_biases self) = [ni; 1] ->
  shape user_ids = [B] -> shape item_ids = [B] ->
  length (data user_ids) = B -> length (data item_ids) = B ->
  2 <= B -> 2 <= k ->
  valid_ids nu user_ids = true -> valid_ids ni item_ids = true ->
  snd (MatrixFactorizationModel.forward user_ids item_ids self) =
  Ok (biased_predictions k (MatrixFactorizationModel.x self)
        (MatrixFactorizationModel.y self)
        (MatrixFactorizationModel.user_biases self)
        (MatrixFactorizationModel.item_biases self) user_ids item_ids).
Proof.
  intros Hx Hy Hub Hib Hu Hi Lu Li HB Hk Vu Vi.
  unfold MatrixFactorizationModel.forward, bind, call, attr, ret.
  rewrite (lookup_squeeze_bias _ _ nu B Hub Hu HB Vu).
  rewrite (lookup_squeeze_bias _ _ ni B Hib Hi HB Vi).
  unfold tadd at 1. rewrite binop_same_shape by reflexivity.
  rewrite (lookup_squeeze_batch _ _ nu k B Hx Hu HB Hk Vu).
  rewrite (lookup_squeeze_batch _ _ ni k B Hy Hi HB Hk Vi).
  rewrite (dot_batch _ _ _ _ k B Lu Li).
  unfold tadd. rewrite binop_same_shape by reflexivity.
  unfold biased_predictions. rewrite Hu. simpl. do 2 f_equal.
  rewrite Nat.mul_1_r.
  rewrite <- (map_nth_seq
                (fun p =>
                   add (add (nth (Z.to_nat (fst p))
                               (data (MatrixFactorizationModel.user_biases self)) zero)
                            (nth (Z.to_nat (snd p))
                               (data (MatrixFactorizationModel.item_biases self)) zero))
                       (latent_dot k (data (MatrixFactorizationModel.x self))
                          (data (MatrixFactorizationModel.y self))
                          (Z.to_nat (fst p)) (Z.to_nat (snd p))))
                (combine (data user_ids) (data item_ids)) (0%Z, 0%Z)).
  rewrite length_combine, Lu, Li, Nat.min_id.
  apply map_seq_ext. intros o Ho.
  rewrite nth_map_seq by exact Ho.
  rewrite (nth_map_in_range _ (data user_ids) o 0%Z) by lia.
  rewrite (nth_map_in_range _ (data item_ids) o 0%Z) by lia.
  rewrite (nth_map_in_range _ (combine (data user_ids) (data item_ids)) o (0%Z, 0%Z))
    by (rewrite length_combine; lia).
  rewrite combine_nth by congruence. reflexivity.
Qed.

End Batches.

(** With all biases zero the two models agree, in exact arithmetic, on
    every batch of at least two pairs when there are at least two
    factors. *)
Lemma zero_biases_agree_exact
    (biased : MatrixFactorizationModel.t R) (simple : SimpleMatrixFactorizationModel.t R)
    (user_ids item_ids : tensor Z) (nu ni k B : nat) :
  MatrixFactorizationModel.x biased = SimpleMatrixFactorizationModel.x simple ->
  MatrixFactorizationModel.y biased = SimpleMatrixFactorizationModel.y simple ->
  shape (MatrixFactorizationModel.x biased) = [nu; k] ->
  shape (MatrixFactorizationModel.y biased) = [ni; k] ->
  shape (MatrixFactorizationModel.user_biases biased) = [nu; 1] ->
  shape (MatrixFactorizationModel.item_biases biased) = [ni; 1] ->
  Forall (fun a => a = 0%R) (data (MatrixFactorizationModel.user_biases biased)) ->
  Forall (fun a => a = 0%R) (data (MatrixFactorizationModel.item_biases biased)) ->
  shape user_ids = [B] -> shape item_ids = [B] ->
  length (data user_ids) = B -> length (data item_ids) = B ->
  2 <= B -> 2 <= k ->
  valid_ids nu user_ids = true -> valid_ids ni item_ids = true ->
  snd (MatrixFactorizationModel.forward user_ids item_ids biased) =
  snd (SimpleMatrixFactorizationModel.forward user_ids item_ids simple).
Proof.
  intros Ex Ey Hx Hy Hub Hib Zu Zi Hu Hi Lu Li HB Hk Vu Vi.
  rewrite (biased_forward_batch biased user_ids item_ids nu ni k B) by assumption.
  rewrite (simple_forward_batch simple user_ids item_ids nu ni k B)
    by (congruence || assumption).
  unfold biased_predictions, dot_predictions. rewrite Ex, Ey. do 2 f_equal.
  apply map_ext. intros p.
  assert (Z0 : forall (l : list R) i, Forall (fun a => a = 0%R) l -> nth i l 0%R = 0%R).
  { intros l i Z. destruct (Nat.lt_ge_cases i (length l)) as [Hl|Hl].
    - rewrite Forall_forall in Z. apply Z, nth_In, Hl.
    - apply nth_overflow, Hl. }
  simpl. rewrite (Z0 _ _ Zu), (Z0 _ _ Zi). ring.
Qed.

(** ** The embedding models at concrete inputs *)

(** With two factors, a single pair, a batch of pairs and a batch of
    batches of pairs all yield the inner products, in the shape of the
    indices. *)
Lemma two_factors_all_ranks :
  snd (SimpleMatrixFactorizationModel.forward ids_pair ids_pair simple_model_2)
    = Ok (dot_predictions 2 (SimpleMatrixFactorizationModel.x simple_model_2)
            (SimpleMatrixFactorizationModel.y simple_model_2) ids_pair ids_pair) /\
  snd (SimpleMatrixFactorizationModel.forward ids_01 ids_01 simple_model_2)
    = Ok (dot_predictions 2 (SimpleMatrixFactorizationModel.x simple_model_2)
            (SimpleMatrixFactorizationModel.y simple_model_2) ids_01 ids_01) /\
  snd (SimpleMatrixFactorizationModel.forward ids_2x2 ids_2x2 simple_model_2)
    = Ok (dot_predictions 2 (SimpleMatrixFactorizationModel.x simple_model_2)
            (SimpleMatrixFactorizationModel.y simple_model_2) ids_2x2 ids_2x2).
Proof. repeat split; reflexivity. Qed.

(** A batch of one pair loses its shape (1,): the prediction comes back
    as a 0-dim number. *)
Lemma batch_of_one_loses_its_shape :
  snd (SimpleMatrixFactorizationModel.forward ids_one ids_one simple_model_2)
    = Ok (mkTensor [] [f32_of 53 0]) /\
  shape (dot_predictions 2 (SimpleMatrixFactorizationModel.x simple_model_2)
           (SimpleMatrixFactorizationModel.y simple_model_2) ids_one ids_one) = [1].
Proof. split; reflexivity. Qed.

(** ** A call that fails partway *)

(** On a batch whose rows are too long, the interaction module raises at
    [torch.mm]; [v] is as it was, and the batch size has been recorded. *)
Lemma failing_call_records_batch_size :
  SecondOrderInteraction.forward batch_3x5 interaction_2x2 =
  (SecondOrderInteraction.mk (Some 3) 2 2 (SecondOrderInteraction.v interaction_2x2),
   Raise RuntimeError).
Proof. reflexivity. Qed.

(** * Further properties of the forward passes *)

(** ** What the interaction module accepts and records *)

Ltac run_method :=
  unfold bind, call, attr, assign, ret, on_submodule.

Lemma soi_forward_ok {T : Type} `{Arith T}
    (self : SecondOrderInteraction.t T) (x : tensor T) (B n k : nat) :
  shape x = [B; n] ->
  shape (SecondOrderInteraction.v self) = [n; k] ->
  exists out,
    SecondOrderInteraction.forward x self
      = (SecondOrderInteraction.set_batch_size B self, Ok out) /\
    shape out = [B; 1].
Proof.
  intros Hx Hv. unfold SecondOrderInteraction.forward, size0. run_method.
  rewrite Hx. simpl.
  rewrite (mm_shapes _ _ _ _ _ Hx Hv).
  rewrite (mm_shapes (pow x 2) (pow (SecondOrderInteraction.v self) 2) _ _ _ Hx Hv).
  unfold tsub. rewrite binop_same_shape by reflexivity.
  rewrite (sum_dim_1_matrix _ B k) by reflexivity.
  eexists. split; reflexivity.
Qed.

Lemma soi_forward_ok_inv {T : Type} `{Arith T}
    (self : SecondOrderInteraction.t T) (x out : tensor T) (n k : nat) :
  shape (SecondOrderInteraction.v self) = [n; k] ->
  snd (SecondOrderInteraction.forward x self) = Ok out ->
  exists B, shape x = [B; n].
Proof.
  intros Hv. unfold SecondOrderInteraction.forward, size0, mm. run_method.
  destruct (shape x) as [|B [|n' [|d s]]]; simpl; rewrite ?Hv; try discriminate.
  destruct (n' =? n) eqn:E; [|discriminate].
  apply Nat.eqb_eq in E. subst n'. intros _. exists B. reflexivity.
Qed.

(** X1. The forward pass of the interaction module records the first
    dimension of its input before it computes anything: afterwards the
    object is the one before the call with [batch_size] set to that
    dimension, whether the call returned or raised; only for a 0-dim
    input, whose size cannot be indexed, is the object untouched. *)
Theorem second_order_records_batch_size {T : Type} `{Arith T}
    (self : SecondOrderInteraction.t T) (x : tensor T) :
  fst (SecondOrderInteraction.forward x self) =
  match shape x with
  | [] => self
  | d :: _ => SecondOrderInteraction.set_batch_size d self
  end.
Proof.
  unfold SecondOrderInteraction.forward, size0. run_method.
  destruct (shape x) as [|d s]; [reflexivity|].
  simpl.
  repeat match goal with
         | |- context [match ?r with Ok _ => _ | Raise _ => _ end] => destruct r
         end; reflexivity.
Qed.

(** X2. With [v] of shape (n_features, n_factors), the forward pass of
    the interaction module returns exactly on the inputs of shape
    (batch_size, n_features).  A 0-dim input raises [IndexError]; every
    other input, of another rank or another width, raises
    [RuntimeError]. *)
Theorem second_order_accepts_matrices_only {T : Type} `{Arith T}
    (self : SecondOrderInteraction.t T) (x : tensor T) (n k : nat) :
  shape (SecondOrderInteraction.v self) = [n; k] ->
  ((exists out, snd (SecondOrderInteraction.forward x self) = Ok out) <->
   (exists B, shape x = [B; n])) /\
  (shape x = [] ->
   snd (SecondOrderInteraction.forward x self) = Raise IndexError) /\
  (shape x <> [] -> (forall B, shape x <> [B; n]) ->
   snd (SecondOrderInteraction.forward x self) = Raise RuntimeError).
Proof.
  intros Hv. split; [split|split].
  - intros [out E]. exact (soi_forward_ok_inv self x out n k Hv E).
  - intros [B Hx]. destruct (soi_forward_ok self x B n k Hx Hv) as (out & E & _).
    exists out. rewrite E. reflexivity.
  - intros Hx. unfold SecondOrderInteraction.forward, size0. run_method.
    rewrite Hx. reflexivity.
  - intros Hne Hno. unfold SecondOrderInteraction.forward, size0, mm. run_method.
    destruct (shape x) as [|B [|n' [|d s]]]; simpl; rewrite ?Hv; try reflexivity.
    + congruence.
    + destruct (n' =? n) eqn:E; [|reflexivity].
      apply Nat.eqb_eq in E. subst n'. exfalso. exact (Hno B eq_refl).
Qed.

Lemma second_order_accepts_matrices_only_witness :
  ((exists out, snd (SecondOrderInteraction.forward batch_3x5 interaction_2x2) = Ok out) <->
   (exists B, shape batch_3x5 = [B; 2])) /\
  (shape batch_3x5 = [] ->
   snd (SecondOrderInteraction.forward batch_3x5 interaction_2x2) = Raise IndexError) /\
  (shape batch_3x5 <> [] -> (forall B, shape batch_3x5 <> [B; 2]) ->
   snd (SecondOrderInteraction.forward batch_3x5 interaction_2x2) = Raise RuntimeError).
Proof.
  apply (second_order_accepts_matrices_only interaction_2x2 batch_3x5 2 2).
  reflexivity.
Defined.

(** X3. The result of the forward pass of the interaction module depends
    on the input and on [v] only: two objects with the same [v] return the
    same result, whatever batch size an earlier call has recorded. *)
Theorem second_order_result_ignores_record {T : Type} `{Arith T}
    (self self' : SecondOrderInteraction.t T) (x : tensor T) :
  SecondOrderInteraction.v self = SecondOrderInteraction.v self' ->
  snd (SecondOrderInteraction.forward x self) =
  snd (SecondOrderInteraction.forward x self').
Proof.
  intros E. unfold SecondOrderInteraction.forward. run_method.
  destruct (size0 x) as [b|e]; [|reflexivity].
  simpl. rewrite E.
  repeat match goal with
         | |- context [match ?r with Ok _ => _ | Raise _ => _ end] => destruct r
         end; reflexivity.
Qed.

Lemma second_order_result_ignores_record_witness :
  snd (SecondOrderInteraction.forward batch_3x2 interaction_2x2) =
  snd (SecondOrderInteraction.forward batch_3x2
         (SecondOrderInteraction.set_batch_size 7 interaction_2x2)).
Proof.
  apply (second_order_result_ignores_record interaction_2x2
           (SecondOrderInteraction.set_batch_size 7 interaction_2x2) batch_3x2).
  reflexivity.
Defined.

(** ** What the factorization machine accepts *)

Lemma fm_forward_ok {T : Type} `{Arith T}
    (self : FactorizationMachine.t T) (x : tensor T) (B n k : nat) :
  shape x = [B; n] ->
  shape (FactorizationMachine.linear self) = [n] ->
  shape (SecondOrderInteraction.v (FactorizationMachine.second_order self)) = [n; k] ->
  exists out,
    snd (FactorizationMachine.forward x self) = Ok out /\ shape out = [B; 1].
Proof.
  intros Hx Hw Hv. unfold FactorizationMachine.forward. run_method.
  rewrite (tmul_rows _ _ _ _ Hx Hw).
  rewrite (sum_dim_1_matrix _ B n) by reflexivity.
  destruct (soi_forward_ok (FactorizationMachine.second_order self) x B n k Hx Hv)
    as (inter & E & S).
  rewrite E. unfold tadd. rewrite binop_same_shape by (rewrite S; reflexivity).
  eexists. split; reflexivity.
Qed.

(** X4. With [linear] of shape (n_features,) and [v] of shape
    (n_features, n_factors), the forward pass of the factorization machine
    returns exactly on the batches of shape (batch_size, n_features), and
    what it returns has shape (batch_size, 1). *)
Theorem machine_accepts_matrices_only {T : Type} `{Arith T}
    (self : FactorizationMachine.t T) (x : tensor T) (n k : nat) :
  shape (FactorizationMachine.linear self) = [n] ->
  shape (SecondOrderInteraction.v (FactorizationMachine.second_order self)) = [n; k] ->
  (forall out, snd (FactorizationMachine.forward x self) = Ok out ->
     exists B, shape x = [B; n] /\ shape out = [B; 1]) /\
  (forall B, shape x = [B; n] ->
     exists out, snd (FactorizationMachine.forward x self) = Ok out).
Proof.
  intros Hw Hv. split.
  - intros out E.
    assert (Hx : exists B, shape x = [B; n]).
    { revert E. unfold FactorizationMachine.forward. run_method.
      destruct (tmul x (FactorizationMachine.linear self)) as [xl|e]; [|discriminate].
      destruct (sum_dim 1 xl) as [s|e]; [|discriminate].
      destruct (SecondOrderInteraction.forward x (FactorizationMachine.second_order self))
        as [so [inter|e]] eqn:F; [|discriminate].
      intros _.
      apply (soi_forward_ok_inv (FactorizationMachine.second_order self) x inter n k Hv).
      rewrite F. reflexivity. }
    destruct Hx as [B Hx]. exists B. split; [exact Hx|].
    destruct (fm_forward_ok self x B n k Hx Hw Hv) as (out' & E' & S).
    congruence.
  - intros B Hx.
    destruct (fm_forward_ok self x B n k Hx Hw Hv) as (out & E & _).
    exists out. exact E.
Qed.

Lemma machine_accepts_matrices_only_witness :
  (forall out, snd (FactorizationMachine.forward batch_3x2 machine_2x2) = Ok out ->
     exists B, shape batch_3x2 = [B; 2] /\ shape out = [B; 1]) /\
  (forall B, shape batch_3x2 = [B; 2] ->
     exists out, snd (FactorizationMachine.forward batch_3x2 machine_2x2) = Ok out).
Proof.
  apply (machine_accepts_matrices_only machine_2x2 batch_3x2 2 2); reflexivity.
Defined.

(** X5. A batch of width 1 given to a factorization machine with at
    least two features is not rejected by the linear term: element-wise
    multiplication broadcasts the single column against [linear].  The
    call fails only in the interaction module, at [torch.mm], with
    [RuntimeError], after the batch size has been recorded there. *)
Theorem machine_width_one_fails_late {T : Type} `{Arith T}
    (self : FactorizationMachine.t T) (x : tensor T) (B n k : nat) :
  2 <= n ->
  shape x = [B; 1] ->
  shape (FactorizationMachine.linear self) = [n] ->
  shape (SecondOrderInteraction.v (FactorizationMachine.second_order self)) = [n; k] ->
  (exists xl, tmul x (FactorizationMachine.linear self) = Ok xl /\ shape xl = [B; n]) /\
  FactorizationMachine.forward x self =
  (FactorizationMachine.set_second_order
     (SecondOrderInteraction.set_batch_size B (FactorizationMachine.second_order self))
     self,
   Raise RuntimeError).
Proof.
  intros Hn Hx Hw Hv.
  destruct n as [|[|n]]; try lia.
  assert (Hb : broadcast_shapes [B; 1] [S (S n)] = Some [B; S (S n)]) by reflexivity.
  split.
  - unfold tmul, binop. rewrite Hx, Hw, Hb. eexists. split; reflexivity.
  - unfold FactorizationMachine.forward. run_method.
    unfold tmul, binop. rewrite Hx, Hw, Hb.
    unfold sum_dim, dim. simpl.
    unfold SecondOrderInteraction.forward, size0, mm. run_method.
    rewrite Hx. simpl. rewrite Hv. reflexivity.
Qed.

Lemma machine_width_one_fails_late_witness :
  (exists xl, tmul (mkTensor [3; 1] [f32_of 1 0; f32_of 2 0; f32_of 3 0])
                (FactorizationMachine.linear machine_2x2) = Ok xl /\
              shape xl = [3; 2]) /\
  FactorizationMachine.forward (mkTensor [3; 1] [f32_of 1 0; f32_of 2 0; f32_of 3 0])
    machine_2x2 =
  (FactorizationMachine.set_second_order
     (SecondOrderInteraction.set_batch_size 3 (FactorizationMachine.second_order machine_2x2))
     machine_2x2,
   Raise RuntimeError).
Proof.
  apply (machine_width_one_fails_late machine_2x2
           (mkTensor [3; 1] [f32_of 1 0; f32_of 2 0; f32_of 3 0]) 3 2 2);
    solve [reflexivity | lia].
Defined.

(** X6. A single sample given without its batch dimension, a tensor of
    shape (n_features,), is rejected by the factorization machine:
    [.sum(1)] on the rank-1 product raises [IndexError] before the
    interaction module is called, and the object is left untouched. *)
Theorem machine_rejects_unbatched_sample {T : Type} `{Arith T}
    (self : FactorizationMachine.t T) (x : tensor T) (n : nat) :
  shape x = [n] ->
  shape (FactorizationMachine.linear self) = [n] ->
  FactorizationMachine.forward x self = (self, Raise IndexError).
Proof.
  intros Hx Hw. unfold FactorizationMachine.forward. run_method.
  unfold tmul. rewrite binop_same_shape by congruence.
  unfold sum_dim, dim. simpl. rewrite Hx. reflexivity.
Qed.

Lemma machine_rejects_unbatched_sample_witness :
  FactorizationMachine.forward (mkTensor [2] [f32_of 1 0; f32_of 2 0]) machine_2x2
  = (machine_2x2, Raise IndexError).
Proof.
  apply (machine_rejects_unbatched_sample machine_2x2
           (mkTensor [2] [f32_of 1 0; f32_of 2 0]) 2); reflexivity.
Defined.

(** ** Construction *)

Lemma uniform_shape {T : Type} `{Arith T}
    (s : list nat) (lo hi : T) (g : generator T) :
  exists t,
    uniform_ s lo hi g = (mkGenerator (unit_draw g) (consumed g + numel s), Ok t) /\
    shape t = s /\ well_formed t.
Proof.
  eexists. split; [reflexivity|]. split; [reflexivity|].
  unfold well_formed. simpl. rewrite length_map, length_seq. reflexivity.
Qed.

(** X7. A factorization machine as its constructor builds it, from any
    state of the random number generator, has parameters of matching
    shapes, (n_features,) and (n_features, n_factors) with n_factors
    defaulting to 10, and no batch size recorded; the constructor consumes
    n_features * (1 + n_factors) draws; and the forward pass of the new
    machine returns a tensor of shape (batch_size, 1) on every batch of
    shape (batch_size, n_features). *)
Theorem constructed_machine_accepts_batches {T : Type} `{Arith T} `{Literals T}
    (g : generator T) (n_features : nat) (n_factors : option nat)
    (x : tensor T) (B : nat) :
  shape x = [B; n_features] ->
  let k := match n_factors with Some k => k | None => 10 end in
  exists self g' out,
    FactorizationMachine__init__ n_features n_factors g = (g', Ok self) /\
    shape (FactorizationMachine.linear self) = [n_features] /\
    well_formed (FactorizationMachine.linear self) /\
    shape (SecondOrderInteraction.v (FactorizationMachine.second_order self))
      = [n_features; k] /\
    well_formed (SecondOrderInteraction.v (FactorizationMachine.second_order self)) /\
    SecondOrderInteraction.batch_size (FactorizationMachine.second_order self) = None /\
    consumed g' = consumed g + n_features * (1 + k) /\
    snd (FactorizationMachine.forward x self) = Ok out /\
    shape out = [B; 1].
Proof.
  intros Hx k.
  unfold FactorizationMachine__init__, SecondOrderInteraction__init__. run_method.
  fold k.
  destruct (uniform_shape [n_features] lit_neg_0_01 lit_0_01 g) as (w & Ew & Sw & Ww).
  rewrite Ew.
  destruct (uniform_shape [n_features; k] lit_neg_0_01 lit_0_01
              (mkGenerator (unit_draw g) (consumed g + numel [n_features])))
    as (v & Ev & Sv & Wv).
  rewrite Ev.
  destruct (fm_forward_ok
              (FactorizationMachine.mk n_features k w
                 (SecondOrderInteraction.mk None n_features k v))
              x B n_features k Hx Sw Sv) as (out & E & S).
  do 3 eexists. split; [reflexivity|].
  repeat (split; [assumption || reflexivity|]).
  split; [simpl; lia|]. split; [exact E | exact S].
Qed.

Lemma constructed_machine_accepts_batches_witness :
  exists self g' out,
    FactorizationMachine__init__ 2 None quarters = (g', Ok self) /\
    shape (FactorizationMachine.linear self) = [2] /\
    well_formed (FactorizationMachine.linear self) /\
    shape (SecondOrderInteraction.v (FactorizationMachine.second_order self))
      = [2; 10] /\
    well_formed (SecondOrderInteraction.v (FactorizationMachine.second_order self)) /\
    SecondOrderInteraction.batch_size (FactorizationMachine.second_order self) = None /\
    consumed g' = consumed quarters + 2 * (1 + 10) /\
    snd (FactorizationMachine.forward batch_3x2 self) = Ok out /\
    shape out = [3; 1].
Proof.
  apply (constructed_machine_accepts_batches quarters 2 None batch_3x2 3).
  reflexivity.
Defined.

(** X8. With the generator drawing from [0, 1), every initial weight of
    a newly constructed factorization machine, in [linear] and in [v],
    lies in [-0.01, 0.01) (exact arithmetic). *)
Theorem constructed_machine_weights_in_range
    (g : generator R) (n_features : nat) (n_factors : option nat) :
  (forall i, (0 <= unit_draw g i < 1)%R) ->
  exists self g',
    FactorizationMachine__init__ n_features n_factors g = (g', Ok self) /\
    Forall (fun a => (- (1 / 100) <= a < 1 / 100)%R)
      (data (FactorizationMachine.linear self)) /\
    Forall (fun a => (- (1 / 100) <= a < 1 / 100)%R)
      (data (SecondOrderInteraction.v (FactorizationMachine.second_order self))).
Proof.
  intros Hg.
  assert (range : forall (s : list nat) (c : nat),
             Forall (fun a => (- (1 / 100) <= a < 1 / 100)%R)
               (map (fun i => add (mul (unit_draw g (c + i))
                                       (sub lit_0_01 lit_neg_0_01)) lit_neg_0_01)
                    (seq 0 (numel s)))).
  { intros s c. apply Forall_forall. intros a Ha.
    apply in_map_iff in Ha. destruct Ha as (i & <- & _).
    pose proof (Hg (c + i)) as Hu. simpl. lra. }
  do 2 eexists. split; [reflexivity|]. split; apply range.
Qed.

Lemma constructed_machine_weights_in_range_witness :
  exists self g',
    FactorizationMachine__init__ 2 (Some 3) quarters_exact = (g', Ok self) /\
    Forall (fun a => (- (1 / 100) <= a < 1 / 100)%R)
      (data (FactorizationMachine.linear self)) /\
    Forall (fun a => (- (1 / 100) <= a < 1 / 100)%R)
      (data (SecondOrderInteraction.v (FactorizationMachine.second_order self))).
Proof.
  apply (constructed_machine_weights_in_range quarters_exact 2 (Some 3)).
  intros i. unfold quarters_exact. cbn [unit_draw].
  assert (Hm : (i mod 4 < 4)%nat) by (apply Nat.mod_upper_bound; lia).
  pose proof (pos_INR (i mod 4)) as H0.
  apply lt_INR in Hm. replace (INR 4) with 4%R in Hm by (simpl; lra). lra.
Defined.

(** ** Algebra of the interaction, in exact arithmetic *)

Section ExactAlgebra.

Open Scope R_scope.

Lemma at2_column {T : Type} `{Arith T} (G : nat -> T) (B b : nat) :
  (b < B)%nat -> at2 (mkTensor [B; 1%nat] (map G (seq 0 B))) b 0 = G b.
Proof.
  intros Hb. unfold at2. cbn [shape data].
  replace (b * nth 1 [B; 1%nat] 0 + 0)%nat with b by (simpl; lia).
  exact (nth_map_seq G B b zero Hb).
Qed.

Lemma fm_forward_exact
    (self : FactorizationMachine.t R) (x : tensor R) (B n k : nat) :
  shape x = [B; n] -> well_formed x ->
  shape (FactorizationMachine.linear self) = [n] ->
  shape (SecondOrderInteraction.v (FactorizationMachine.second_order self)) = [n; k] ->
  well_formed (SecondOrderInteraction.v (FactorizationMachine.second_order self)) ->
  exists out,
    snd (FactorizationMachine.forward x self) = Ok out /\
    shape out = [B; 1%nat] /\
    forall b, (b < B)%nat ->
      at2 out b 0 =
      sum_upto n (fun i => at2 x b i * nth i (data (FactorizationMachine.linear self)) 0)
      + pairwise_interaction
          (SecondOrderInteraction.v (FactorizationMachine.second_order self)) x b.
Proof.
  intros Hx Wx Hw Hv Wv.
  rewrite (fm_forward_spec self x B n k Hx Wx Hw Hv Wv).
  eexists. split; [reflexivity|]. split; [reflexivity|].
  intros b Hb. rewrite at2_column by exact Hb.
  cbv [add RArith]. f_equal.
  - unfold linear_entry, at2. rewrite Hx. reflexivity.
  - rewrite <- closed_form_pairwise.
    apply (soi_entry_closed_form _ x B n k b Hx Hv).
Qed.

Lemma at2_scale (c : R) (x : tensor R) (b i : nat) :
  at2 (scale c x) b i = c * at2 x b i.
Proof.
  unfold at2, scale. simpl.
  change 0 with (zero : R) at 1.
  replace (zero : R) with (c * 0) at 1 by (simpl; ring).
  apply (map_nth (Rmult c)).
Qed.

Lemma pairwise_scale (c : R) (V x : tensor R) (b : nat) :
  pairwise_interaction V (scale c x) b = c ^ 2 * pairwise_interaction V x b.
Proof.
  unfold pairwise_interaction.
  rewrite <- Rsum_scale. apply sum_upto_ext. intros j _.
  rewrite <- Rsum_scale. apply sum_upto_ext. intros i _.
  rewrite !at2_scale. ring.
Qed.

(** X9. In exact arithmetic the interaction is homogeneous of degree 2:
    multiplying the batch by a scalar [c] multiplies every entry of the
    output of the interaction module by [c^2]. *)
Theorem interaction_is_quadratic
    (self : SecondOrderInteraction.t R) (x : tensor R) (c : R) (B n k : nat) :
  shape x = [B; n] -> well_formed x ->
  shape (SecondOrderInteraction.v self) = [n; k] ->
  well_formed (SecondOrderInteraction.v self) ->
  exists out out',
    snd (SecondOrderInteraction.forward x self) = Ok out /\
    snd (SecondOrderInteraction.forward (scale c x) self) = Ok out' /\
    forall b, (b < B)%nat -> at2 out' b 0 = c ^ 2 * at2 out b 0.
Proof.
  intros Hx Wx Hv Wv.
  destruct (soi_forward_exact self x B n k Hx Wx Hv Wv) as (out & E & _ & C).
  assert (Wx' : well_formed (scale c x)).
  { unfold well_formed, scale in *. simpl. rewrite length_map. exact Wx. }
  destruct (soi_forward_exact self (scale c x) B n k Hx Wx' Hv Wv) as (out' & E' & _ & C').
  exists out, out'. split; [exact E|]. split; [exact E'|].
  intros b Hb. rewrite (C b Hb), (C' b Hb), !closed_form_pairwise.
  apply pairwise_scale.
Qed.

Lemma interaction_is_quadratic_witness :
  exists out out',
    snd (SecondOrderInteraction.forward batch_3x2_exact interaction_2x2_exact) = Ok out /\
    snd (SecondOrderInteraction.forward (scale 3 batch_3x2_exact) interaction_2x2_exact)
      = Ok out' /\
    forall b, (b < 3)%nat -> at2 out' b 0 = 3 ^ 2 * at2 out b 0.
Proof.
  apply (interaction_is_quadratic interaction_2x2_exact batch_3x2_exact 3 3 2 2);
    reflexivity.
Defined.

(** A sum with a single term that is not zero. *)
Lemma Rsum_single (n j0 : nat) (f : nat -> R) :
  (j0 < n)%nat -> (forall j, (j < n)%nat -> j <> j0 -> f j = 0) ->
  sum_upto n f = f j0.
Proof.
  induction n as [|n IH]; intros Hj Z; [lia|].
  rewrite Rsum_S. destruct (Nat.eq_dec j0 n) as [->|Hne].
  - rewrite Rsum_zero; [ring|]. intros j Hjn. apply Z; lia.
  - rewrite IH, (Z n) by (try lia; intros; apply Z; lia). ring.
Qed.

(** A sum with two terms that are not zero. *)
Lemma Rsum_pair (n u i : nat) (f : nat -> R) :
  (u < i < n)%nat -> (forall j, (j < n)%nat -> j <> u -> j <> i -> f j = 0) ->
  sum_upto n f = f u + f i.
Proof.
  induction n as [|n IH]; intros Hj Z; [lia|].
  rewrite Rsum_S. destruct (Nat.eq_dec i n) as [->|Hne].
  - rewrite (Rsum_single n u); [ring | lia |].
    intros j Hjn Hju. apply Z; lia.
  - rewrite IH, (Z n) by (try lia; intros; apply Z; lia). ring.
Qed.

(** X10. In exact arithmetic, on a sample whose only features that are
    not zero are [u] and [i], the factorization machine returns
    x_u * linear[u] + x_i * linear[i] + x_u * x_i * <V_u, V_i>.  With the
    one-hot encoding of a user and an item this is the score of a matrix
    factorization with biases: two weights and one inner product. *)
Theorem machine_on_two_features
    (self : FactorizationMachine.t R) (x : tensor R) (B n k b u i : nat) :
  shape x = [B; n] -> well_formed x ->
  shape (FactorizationMachine.linear self) = [n] ->
  shape (SecondOrderInteraction.v (FactorizationMachine.second_order self)) = [n; k] ->
  well_formed (SecondOrderInteraction.v (FactorizationMachine.second_order self)) ->
  (b < B)%nat -> (u < i < n)%nat ->
  (forall j, (j < n)%nat -> j <> u -> j <> i -> at2 x b j = 0) ->
  exists out,
    snd (FactorizationMachine.forward x self) = Ok out /\
    at2 out b 0 =
    at2 x b u * nth u (data (FactorizationMachine.linear self)) 0
    + at2 x b i * nth i (data (FactorizationMachine.linear self)) 0
    + at2 x b u * at2 x b i
      * row_product (SecondOrderInteraction.v (FactorizationMachine.second_order self)) u i.
Proof.
  intros Hx Wx Hw Hv Wv Hb Hui Z.
  destruct (fm_forward_exact self x B n k Hx Wx Hw Hv Wv) as (out & E & _ & C).
  exists out. split; [exact E|]. rewrite (C b Hb).
  rewrite (Rsum_pair n u i) by (try exact Hui; intros j Hj Hu Hi; rewrite (Z j Hj Hu Hi); ring).
  unfold pairwise_interaction. rewrite Hv. simpl nth.
  rewrite (Rsum_single n i).
  - rewrite (Rsum_single i u).
    + ring.
    + lia.
    + intros j Hj Hju. rewrite (Z j) by lia. ring.
  - lia.
  - intros j Hj Hji. destruct (Nat.eq_dec j u) as [->|Hju].
    + apply Rsum_zero. intros j' Hj'. rewrite (Z j') by lia. ring.
    + apply Rsum_zero. intros j' Hj'. rewrite (Z j Hj Hju Hji). ring.
Qed.

Lemma machine_on_two_features_witness :
  exists out,
    snd (FactorizationMachine.forward one_hot_pair_exact machine_3x2_exact) = Ok out /\
    at2 out 0 0 =
    at2 one_hot_pair_exact 0 0 * nth 0 (data (FactorizationMachine.linear machine_3x2_exact)) 0
    + at2 one_hot_pair_exact 0 2
      * nth 2 (data (FactorizationMachine.linear machine_3x2_exact)) 0
    + at2 one_hot_pair_exact 0 0 * at2 one_hot_pair_exact 0 2
      * row_product
          (SecondOrderInteraction.v (FactorizationMachine.second_order machine_3x2_exact))
          0 2.
Proof.
  apply (machine_on_two_features machine_3x2_exact one_hot_pair_exact 1 3 2 0 0 2);
    try reflexivity; try lia.
  intros j Hj H0 H2.
  destruct j as [|[|j]]; [lia | reflexivity | lia].
Defined.

Lemma row_product_zero (V : tensor R) (i j : nat) :
  Forall (fun a => a = 0) (data V) -> row_product V i j = 0.
Proof.
  intros Z. unfold row_product. apply Rsum_zero. intros f _.
  rewrite (at2_all_zero V i f Z). ring.
Qed.

(** X11. In exact arithmetic a factorization machine whose [v] is all
    zero is the linear model: its output for a sample is the sum over the
    features of x_i * linear[i]. *)
Theorem machine_without_factors_is_linear
    (self : FactorizationMachine.t R) (x : tensor R) (B n k : nat) :
  shape x = [B; n] -> well_formed x ->
  shape (FactorizationMachine.linear self) = [n] ->
  shape (SecondOrderInteraction.v (FactorizationMachine.second_order self)) = [n; k] ->
  well_formed (SecondOrderInteraction.v (FactorizationMachine.second_order self)) ->
  Forall (fun a => a = 0)
    (data (SecondOrderInteraction.v (FactorizationMachine.second_order self))) ->
  exists out,
    snd (FactorizationMachine.forward x self) = Ok out /\
    forall b, (b < B)%nat ->
      at2 out b 0 =
      sum_upto n (fun i => at2 x b i * nth i (data (FactorizationMachine.linear self)) 0).
Proof.
  intros Hx Wx Hw Hv Wv Z.
  destruct (fm_forward_exact self x B n k Hx Wx Hw Hv Wv) as (out & E & _ & C).
  exists out. split; [exact E|]. intros b Hb. rewrite (C b Hb).
  unfold pairwise_interaction.
  rewrite (Rsum_zero (nth 0 (shape _) 0%nat)); [ring|].
  intros j _. apply Rsum_zero. intros i _.
  rewrite (row_product_zero _ i j Z). ring.
Qed.

Lemma machine_without_factors_is_linear_witness :
  exists out,
    snd (FactorizationMachine.forward one_hot_pair_exact linear_machine_3x2_exact) = Ok out /\
    forall b, (b < 1)%nat ->
      at2 out b 0 =
      sum_upto 3 (fun i =>
        at2 one_hot_pair_exact b i
        * nth i (data (FactorizationMachine.linear linear_machine_3x2_exact)) 0).
Proof.
  apply (machine_without_factors_is_linear linear_machine_3x2_exact one_hot_pair_exact 1 3 2);
    try reflexivity.
  repeat (apply Forall_cons; [reflexivity|]). apply Forall_nil.
Defined.

End ExactAlgebra.

(** ** The embedding models on every supported rank *)

Section EmbeddingRanks.

Context {T : Type} `{Arith T}.

Lemma filter_no_unit (s : list nat) :
  Forall (fun d => d <> 1) s -> filter (fun d => negb (d =? 1)) s = s.
Proof.
  induction 1 as [|d s Hd _ IH]; [reflexivity|].
  simpl. apply Nat.eqb_neq in Hd. rewrite Hd, IH. reflexivity.
Qed.

Lemma lookup_squeeze_rows (w : tensor T) (ids : tensor Z) (n k : nat) :
  shape w = [n; k] -> valid_ids n ids = true ->
  Forall (fun d => d <> 1) (shape ids) -> k <> 1 ->
  lookup_squeeze w ids =
  Ok (mkTensor (shape ids ++ [k])
        (flat_map (fun i => table_row zero k (data w) (Z.to_nat i)) (data ids))).
Proof.
  intros Hw V Hs Hk. unfold lookup_squeeze, embedding. rewrite Hw, V.
  unfold squeeze. cbn [shape data]. rewrite filter_app, (filter_no_unit _ Hs).
  simpl. apply Nat.eqb_neq in Hk. rewrite Hk. reflexivity.
Qed.

Lemma lookup_squeeze_biases (w : tensor T) (ids : tensor Z) (n : nat) :
  shape w = [n; 1] -> valid_ids n ids = true ->
  Forall (fun d => d <> 1) (shape ids) ->
  lookup_squeeze w ids =
  Ok (mkTensor (shape ids) (map (fun i => nth (Z.to_nat i) (data w) zero) (data ids))).
Proof.
  intros Hw V Hs. unfold lookup_squeeze, embedding. rewrite Hw, V.
  unfold squeeze. cbn [shape data]. rewrite filter_app, (filter_no_unit _ Hs).
  simpl. rewrite app_nil_r. do 2 f_equal.
  induction (data ids) as [|i l IH]; [reflexivity|].
  simpl. f_equal; [f_equal; lia | exact IH].
Qed.

(** The sum along the last dimension. *)
Lemma sum_dim_last (t : tensor T) (s : list nat) (k : nat) :
  shape t = s ++ [k] ->
  sum_dim (length s) t =
  Ok (mkTensor s
        (map (fun o => sum_upto k (fun j => nth (o * k + j) (data t) zero))
             (seq 0 (numel s)))).
Proof.
  intros Ht. unfold sum_dim, dim. rewrite Ht, length_app. simpl length.
  replace (length s <? length s + 1) with true by (symmetry; apply Nat.ltb_lt; lia).
  rewrite firstn_app, firstn_all, Nat.sub_diag. simpl firstn. rewrite app_nil_r.
  rewrite nth_middle.
  rewrite skipn_all2 by (rewrite length_app; simpl; lia).
  rewrite app_nil_r. simpl numel. rewrite tabulate2_column.
  do 2 f_equal. apply map_seq_ext. intros o _. apply sum_upto_ext. intros j _.
  f_equal. lia.
Qed.

(** The rank dispatch on two gathered batches whose last dimension is the
    factor dimension and whose rank is at most 3: one inner product per
    index tuple. *)
Lemma dot_last_dimension (u v : tensor T) (s : list nat) (k : nat) :
  shape u = s ++ [k] -> shape v = s ++ [k] -> length s <= 2 ->
  dot u v =
  Ok (mkTensor s
        (map (fun o => sum_upto k (fun j => mul (nth (o * k + j) (data u) zero)
                                                (nth (o * k + j) (data v) zero)))
             (seq 0 (numel s)))).
Proof.
  intros Hu Hv Hs. unfold dot, dim, tmul.
  rewrite binop_same_shape by congruence.
  rewrite Hu, length_app. simpl length.
  assert (Hin : forall o j, o < numel s -> j < k -> o * k + j < numel (s ++ [k])).
  { intros o j Ho Hj. rewrite numel_app. simpl. nia. }
  destruct s as [|a [|b [|c s]]]; simpl length in *; try lia.
  - simpl. unfold sum_all. cbn [data]. do 3 f_equal.
    unfold sum_upto. f_equal. rewrite Nat.mul_1_r.
    apply map_seq_ext. intros j Hj. reflexivity.
  - rewrite (sum_dim_last _ [a] k) by reflexivity.
    change (2 <? 1 + 1) with false. change (1 <? 1 + 1) with true. cbv iota.
    do 2 f_equal. apply map_seq_ext. intros o Ho. apply sum_upto_ext. intros j Hj.
    cbn [data]. rewrite nth_map_seq by (apply Hin; assumption). reflexivity.
  - rewrite (sum_dim_last _ [a; b] k) by reflexivity.
    change (2 <? 2 + 1) with true. cbv iota.
    do 2 f_equal. apply map_seq_ext. intros o Ho. apply sum_upto_ext. intros j Hj.
    cbn [data]. rewrite nth_map_seq by (apply Hin; assumption). reflexivity.
Qed.

Lemma gathered_dot (xd yd : list T) (uids iids : list Z) (k m : nat) :
  length uids = m -> length iids = m ->
  map (fun o =>
         sum_upto k (fun j =>
           mul (nth (o * k + j)
                  (flat_map (fun i => table_row zero k xd (Z.to_nat i)) uids) zero)
               (nth (o * k + j)
                  (flat_map (fun i => table_row zero k yd (Z.to_nat i)) iids) zero)))
      (seq 0 m) =
  map (fun p => latent_dot k xd yd (Z.to_nat (fst p)) (Z.to_nat (snd p)))
      (combine uids iids).
Proof.
  intros Lu Li.
  rewrite <- (map_nth_seq
                (fun p => latent_dot k xd yd (Z.to_nat (fst p)) (Z.to_nat (snd p)))
                (combine uids iids) (0%Z, 0%Z)).
  rewrite length_combine, Lu, Li, Nat.min_id.
  apply map_seq_ext. intros o Ho.
  rewrite combine_nth by congruence. simpl.
  unfold latent_dot. apply sum_upto_ext. intros j Hj.
  rewrite !nth_gathered by (assumption || lia). reflexivity.
Qed.

Lemma simple_forward_supported (self : SimpleMatrixFactorizationModel.t T)
    (user_ids item_ids : tensor Z) (nu ni k : nat) :
  shape (SimpleMatrixFactorizationModel.x self) = [nu; k] ->
  shape (SimpleMatrixFactorizationModel.y self) = [ni; k] ->
  shape item_ids = shape user_ids ->
  well_formed user_ids -> well_formed item_ids ->
  length (shape user_ids) <= 2 ->
  Forall (fun d => d <> 1) (shape user_ids) ->
  k <> 1 ->
  valid_ids nu user_ids = true -> valid_ids ni item_ids = true ->
  snd (SimpleMatrixFactorizationModel.forward user_ids item_ids self) =
  Ok (dot_predictions k (SimpleMatrixFactorizationModel.x self)
        (SimpleMatrixFactorizationModel.y self) user_ids item_ids).
Proof.
  intros Hx Hy Hs Wu Wi Hr Hd Hk Vu Vi.
  unfold SimpleMatrixFactorizationModel.forward. run_method.
  rewrite (lookup_squeeze_rows _ _ nu k Hx Vu Hd Hk).
  rewrite (lookup_squeeze_rows _ _ ni k Hy Vi) by (rewrite ?Hs; assumption).
  rewrite (dot_last_dimension _ _ (shape user_ids) k) by (rewrite ?Hs; auto).
  cbn [data snd]. unfold dot_predictions. do 2 f_equal.
  apply gathered_dot; [exact Wu | unfold well_formed in Wi; rewrite Hs in Wi; exact Wi].
Qed.

Lemma biased_forward_supported (self : MatrixFactorizationModel.t T)
    (user_ids item_ids : tensor Z) (nu ni k : nat) :
  shape (MatrixFactorizationModel.x self) = [nu; k] ->
  shape (MatrixFactorizationModel.y self) = [ni; k] ->
  shape (MatrixFactorizationModel.user_biases self) = [nu; 1] ->
  shape (MatrixFactorizationModel.item_biases self) = [ni; 1] ->
  shape item_ids = shape user_ids ->
  well_formed user_ids -> well_formed item_ids ->
  length (shape user_ids) <= 2 ->
  Forall (fun d => d <> 1) (shape user_ids) ->
  k <> 1 ->
  valid_ids nu user_ids = true -> valid_ids ni item_ids = true ->
  snd (MatrixFactorizationModel.forward user_ids item_ids self) =
  Ok (biased_predictions k (MatrixFactorizationModel.x self)
        (MatrixFactorizationModel.y self)
        (MatrixFactorizationModel.user_biases self)
        (MatrixFactorizationModel.item_biases self) user_ids item_ids).
Proof.
  intros Hx Hy Hub Hib Hs Wu Wi Hr Hd Hk Vu Vi.
  assert (Hd' : Forall (fun d => d <> 1) (shape item_ids)) by (rewrite Hs; exact Hd).
  unfold well_formed in Wu, Wi. rewrite Hs in Wi.
  unfold MatrixFactorizationModel.forward. run_method.
  rewrite (lookup_squeeze_biases _ _ nu Hub Vu Hd).
  rewrite (lookup_squeeze_biases _ _ ni Hib Vi Hd').
  unfold tadd at 1. rewrite binop_same_shape by (cbn [shape]; congruence).
  rewrite (lookup_squeeze_rows _ _ nu k Hx Vu Hd Hk).
  rewrite (lookup_squeeze_rows _ _ ni k Hy Vi Hd' Hk).
  rewrite (dot_last_dimension _ _ (shape user_ids) k) by (rewrite ?Hs; auto).
  unfold tadd. rewrite binop_same_shape by reflexivity.
  cbn [shape data snd]. unfold biased_predictions. do 2 f_equal.
  rewrite (gathered_dot _ _ _ _ k (numel (shape user_ids)) Wu Wi).
  rewrite <- (map_nth_seq
                (fun p =>
                   add (add (nth (Z.to_nat (fst p))
                               (data (MatrixFactorizationModel.user_biases self)) zero)
                            (nth (Z.to_nat (snd p))
                               (data (MatrixFactorizationModel.item_biases self)) zero))
                       (latent_dot k (data (MatrixFactorizationModel.x self))
                          (data (MatrixFactorizationModel.y self))
                          (Z.to_nat (fst p)) (Z.to_nat (snd p))))
                (combine (data user_ids) (data item_ids)) (0%Z, 0%Z)).
  rewrite length_combine, Wu, Wi, Nat.min_id.
  apply map_seq_ext. intros o Ho.
  rewrite nth_map_seq by exact Ho.
  rewrite (nth_map_in_range _ (data user_ids) o 0%Z) by lia.
  rewrite (nth_map_in_range _ (data item_ids) o 0%Z) by lia.
  rewrite (nth_map_in_range _ (combine (data user_ids) (data item_ids)) o (0%Z, 0%Z))
    by (rewrite length_combine; lia).
  rewrite combine_nth by congruence. reflexivity.
Qed.

(** X12. On index batches of rank 0, 1 or 2 without a dimension of size
    1, and with a number of factors other than 1, the model without
    biases returns the inner product of the two latent vectors of every
    pair, in the shape of the index batch. *)
Theorem simple_model_supported_ranks (self : SimpleMatrixFactorizationModel.t T)
    (user_ids item_ids : tensor Z) (nu ni k : nat) :
  shape (SimpleMatrixFactorizationModel.x self) = [nu; k] ->
  shape (SimpleMatrixFactorizationModel.y self) = [ni; k] ->
  shape item_ids = shape user_ids ->
  well_formed user_ids -> well_formed item_ids ->
  length (shape user_ids) <= 2 ->
  Forall (fun d => d <> 1) (shape user_ids) ->
  k <> 1 ->
  valid_ids nu user_ids = true -> valid_ids ni item_ids = true ->
  snd (SimpleMatrixFactorizationModel.forward user_ids item_ids self) =
  Ok (dot_predictions k (SimpleMatrixFactorizationModel.x self)
        (SimpleMatrixFactorizationModel.y self) user_ids item_ids).
Proof. exact (simple_forward_supported self user_ids item_ids nu ni k). Qed.

(** X13. Under the same conditions the model with biases returns, for
    every pair, the sum of the two biases plus the inner product. *)
Theorem biased_model_supported_ranks (self : MatrixFactorizationModel.t T)
    (user_ids item_ids : tensor Z) (nu ni k : nat) :
  shape (MatrixFactorizationModel.x self) = [nu; k] ->
  shape (MatrixFactorizationModel.y self) = [ni; k] ->
  shape (MatrixFactorizationModel.user_biases self) = [nu; 1] ->
  shape (MatrixFactorizationModel.item_biases self) = [ni; 1] ->
  shape item_ids = shape user_ids ->
  well_formed user_ids -> well_formed item_ids ->
  length (shape user_ids) <= 2 ->
  Forall (fun d => d <> 1) (shape user_ids) ->
  k <> 1 ->
  valid_ids nu user_ids = true -> valid_ids ni item_ids = true ->
  snd (MatrixFactorizationModel.forward user_ids item_ids self) =
  Ok (biased_predictions k (MatrixFactorizationModel.x self)
        (MatrixFactorizationModel.y self)
        (MatrixFactorizationModel.user_biases self)
        (MatrixFactorizationModel.item_biases self) user_ids item_ids).
Proof. exact (biased_forward_supported self user_ids item_ids nu ni k). Qed.

End EmbeddingRanks.

Lemma simple_model_supported_ranks_witness :
  snd (SimpleMatrixFactorizationModel.forward ids_2x2 ids_2x2 simple_model_2) =
  Ok (dot_predictions 2 (SimpleMatrixFactorizationModel.x simple_model_2)
        (SimpleMatrixFactorizationModel.y simple_model_2) ids_2x2 ids_2x2).
Proof.
  apply (simple_model_supported_ranks simple_model_2 ids_2x2 ids_2x2 2 2 2);
    try reflexivity; try (simpl; lia).
  repeat (apply Forall_cons; [lia|]). apply Forall_nil.
Defined.

Lemma biased_model_supported_ranks_witness :
  snd (MatrixFactorizationModel.forward ids_01 ids_01 biased_model_2) =
  Ok (biased_predictions 2 (MatrixFactorizationModel.x biased_model_2)
        (MatrixFactorizationModel.y biased_model_2)
        (MatrixFactorizationModel.user_biases biased_model_2)
        (MatrixFactorizationModel.item_biases biased_model_2) ids_01 ids_01).
Proof.
  apply (biased_model_supported_ranks biased_model_2 ids_01 ids_01 2 2 2);
    try reflexivity; try (simpl; lia).
  repeat (apply Forall_cons; [lia|]). apply Forall_nil.
Defined.

(** ** A single pair, for any number of factors *)

Section SinglePair.

Context {T : Type} `{Arith T}.

Lemma lookup_squeeze_pair (w : tensor T) (ids : tensor Z) (n k : nat) (u : Z) :
  shape w = [n; k] -> shape ids = [] -> data ids = [u] ->
  valid_ids n ids = true ->
  lookup_squeeze w ids =
  Ok (mkTensor (if k =? 1 then [] else [k]) (table_row zero k (data w) (Z.to_nat u))).
Proof.
  intros Hw Hs Hd V. unfold lookup_squeeze, embedding. rewrite Hw, V, Hs, Hd.
  unfold squeeze. simpl. rewrite app_nil_r.
  destruct (k =? 1); reflexivity.
Qed.

Lemma dot_pair (xd yd : list T) (k u i : nat) :
  dot (mkTensor (if k =? 1 then [] else [k]) (table_row zero k xd u))
      (mkTensor (if k =? 1 then [] else [k]) (table_row zero k yd i)) =
  Ok (mkTensor [] [latent_dot k xd yd u i]).
Proof.
  unfold dot, dim, tmul. rewrite binop_same_shape by reflexivity.
  cbn [shape data].
  assert (Hn : numel (if k =? 1 then [] else [k]) = k).
  { destruct (k =? 1) eqn:E; simpl; [apply Nat.eqb_eq in E|]; lia. }
  rewrite Hn.
  assert (Hr : (2 <? length (if k =? 1 then [] else [k])) = false
               /\ (1 <? length (if k =? 1 then [] else [k])) = false).
  { destruct (k =? 1); split; reflexivity. }
  destruct Hr as [-> ->].
  unfold sum_all. cbn [data]. do 3 f_equal.
  unfold latent_dot, sum_upto. f_equal. apply map_seq_ext. intros j Hj.
  unfold table_row. rewrite !nth_map_seq by exact Hj. reflexivity.
Qed.

(** X14. On a single pair of ids, given as two 0-dim tensors, the model
    without biases returns the inner product of the two latent vectors as
    a 0-dim tensor, for every number of factors, 1 included. *)
Theorem simple_model_single_pair (self : SimpleMatrixFactorizationModel.t T)
    (user_ids item_ids : tensor Z) (nu ni k : nat) (u i : Z) :
  shape (SimpleMatrixFactorizationModel.x self) = [nu; k] ->
  shape (SimpleMatrixFactorizationModel.y self) = [ni; k] ->
  shape user_ids = [] -> data user_ids = [u] ->
  shape item_ids = [] -> data item_ids = [i] ->
  valid_ids nu user_ids = true -> valid_ids ni item_ids = true ->
  snd (SimpleMatrixFactorizationModel.forward user_ids item_ids self) =
  Ok (mkTensor []
        [latent_dot k (data (SimpleMatrixFactorizationModel.x self))
           (data (SimpleMatrixFactorizationModel.y self)) (Z.to_nat u) (Z.to_nat i)]).
Proof.
  intros Hx Hy Su Du Si Di Vu Vi.
  unfold SimpleMatrixFactorizationModel.forward. run_method.
  rewrite (lookup_squeeze_pair _ _ nu k u Hx Su Du Vu).
  rewrite (lookup_squeeze_pair _ _ ni k i Hy Si Di Vi).
  rewrite dot_pair. reflexivity.
Qed.

(** X15. On a single pair of ids the model with biases returns, as a
    0-dim tensor, the sum of the two biases plus the inner product, for
    every number of factors. *)
Theorem biased_model_single_pair (self : MatrixFactorizationModel.t T)
    (user_ids item_ids : tensor Z) (nu ni k : nat) (u i : Z) :
  shape (MatrixFactorizationModel.x self) = [nu; k] ->
  shape (MatrixFactorizationModel.y self) = [ni; k] ->
  shape (MatrixFactorizationModel.user_biases self) = [nu; 1] ->
  shape (MatrixFactorizationModel.item_biases self) = [ni; 1] ->
  shape user_ids = [] -> data user_ids = [u] ->
  shape item_ids = [] -> data item_ids = [i] ->
  valid_ids nu user_ids = true -> valid_ids ni item_ids = true ->
  snd (MatrixFactorizationModel.forward user_ids item_ids self) =
  Ok (mkTensor []
        [add (add (nth (Z.to_nat u) (data (MatrixFactorizationModel.user_biases self)) zero)
                  (nth (Z.to_nat i) (data (MatrixFactorizationModel.item_biases self)) zero))
             (latent_dot k (data (MatrixFactorizationModel.x self))
                (data (MatrixFactorizationModel.y self)) (Z.to_nat u) (Z.to_nat i))]).
Proof.
  intros Hx Hy Hub Hib Su Du Si Di Vu Vi.
  unfold MatrixFactorizationModel.forward. run_method.
  rewrite (lookup_squeeze_pair _ _ nu 1 u Hub Su Du Vu).
  rewrite (lookup_squeeze_pair _ _ ni 1 i Hib Si Di Vi).
  unfold tadd at 1. rewrite binop_same_shape by reflexivity.
  rewrite (lookup_squeeze_pair _ _ nu k u Hx Su Du Vu).
  rewrite (lookup_squeeze_pair _ _ ni k i Hy Si Di Vi).
  rewrite dot_pair.
  unfold tadd. rewrite binop_same_shape by reflexivity.
  change (1 =? 1) with true. cbv iota. unfold table_row.
  cbn [shape data snd fold_right seq map nth].
  rewrite !Nat.mul_1_r, !Nat.add_0_r. reflexivity.
Qed.

End SinglePair.

Lemma simple_model_single_pair_witness :
  snd (SimpleMatrixFactorizationModel.forward id_one id_zero simple_model_1) =
  Ok (mkTensor []
        [latent_dot 1 (data (SimpleMatrixFactorizationModel.x simple_model_1))
           (data (SimpleMatrixFactorizationModel.y simple_model_1))
           (Z.to_nat 1) (Z.to_nat 0)]).
Proof.
  apply (simple_model_single_pair simple_model_1 id_one id_zero 2 2 1 1%Z 0%Z);
    reflexivity.
Defined.

Lemma biased_model_single_pair_witness :
  snd (MatrixFactorizationModel.forward id_one id_zero biased_model_1) =
  Ok (mkTensor []
        [add (add (nth (Z.to_nat 1)
                     (data (MatrixFactorizationModel.user_biases biased_model_1)) zero)
                  (nth (Z.to_nat 0)
                     (data (MatrixFactorizationModel.item_biases biased_model_1)) zero))
             (latent_dot 1 (data (MatrixFactorizationModel.x biased_model_1))
                (data (MatrixFactorizationModel.y biased_model_1))
                (Z.to_nat 1) (Z.to_nat 0))]).
Proof.
  apply (biased_model_single_pair biased_model_1 id_one id_zero 2 2 1 1%Z 0%Z);
    reflexivity.
Defined.

(** ** Batches of different lengths *)

Section UnequalBatches.

Context {T : Type} `{Arith T}.





End UnequalBatches.



(** ** An instance of the lemma on zero batches *)

Lemma all_zero_batch_exact_witness :
  exists out,
    snd (SecondOrderInteraction.forward zero_batch_2x2_exact interaction_2x2_exact) = Ok out /\
    shape out = [2; 1] /\
    forall b, b < 2 -> at2 out b 0 = 0%R.
Proof.
  apply (all_zero_batch_exact interaction_2x2_exact zero_batch_2x2_exact 2 2 2);
    try reflexivity.
  repeat (apply Forall_cons; [reflexivity|]). apply Forall_nil.
Defined.

(** ** Zero biases and zero samples *)

(** X18. In exact arithmetic, with all biases zero, the model with biases
    and the model without biases on the same factor tables return the
    same result on every index batch of rank 0, 1 or 2 without a dimension
    of size 1, when the number of factors is not 1. *)
Theorem zero_biases_agree_on_supported_ranks
    (biased : MatrixFactorizationModel.t R) (simple : SimpleMatrixFactorizationModel.t R)
    (user_ids item_ids : tensor Z) (nu ni k : nat) :
  MatrixFactorizationModel.x biased = SimpleMatrixFactorizationModel.x simple ->
  MatrixFactorizationModel.y biased = SimpleMatrixFactorizationModel.y simple ->
  shape (MatrixFactorizationModel.x biased) = [nu; k] ->
  shape (MatrixFactorizationModel.y biased) = [ni; k] ->
  shape (MatrixFactorizationModel.user_biases biased) = [nu; 1] ->
  shape (MatrixFactorizationModel.item_biases biased) = [ni; 1] ->
  Forall (fun a => a = 0%R) (data (MatrixFactorizationModel.user_biases biased)) ->
  Forall (fun a => a = 0%R) (data (MatrixFactorizationModel.item_biases biased)) ->
  shape item_ids = shape user_ids ->
  well_formed user_ids -> well_formed item_ids ->
  length (shape user_ids) <= 2 ->
  Forall (fun d => d <> 1) (shape user_ids) ->
  k <> 1 ->
  valid_ids nu user_ids = true -> valid_ids ni item_ids = true ->
  snd (MatrixFactorizationModel.forward user_ids item_ids biased) =
  snd (SimpleMatrixFactorizationModel.forward user_ids item_ids simple).
Proof.
  intros Ex Ey Hx Hy Hub Hib Zu Zi Hs Wu Wi Hr Hd Hk Vu Vi.
  rewrite (biased_forward_supported biased user_ids item_ids nu ni k) by assumption.
  rewrite (simple_forward_supported simple user_ids item_ids nu ni k)
    by (congruence || assumption).
  unfold biased_predictions, dot_predictions. rewrite Ex, Ey. do 2 f_equal.
  apply map_ext. intros p.
  assert (Z0 : forall (l : list R) i, Forall (fun a => a = 0%R) l -> nth i l 0%R = 0%R).
  { intros l i Z. destruct (Nat.lt_ge_cases i (length l)) as [Hl|Hl].
    - rewrite Forall_forall in Z. apply Z, nth_In, Hl.
    - apply nth_overflow, Hl. }
  simpl. rewrite (Z0 _ _ Zu), (Z0 _ _ Zi). ring.
Qed.

Lemma zero_biases_agree_on_supported_ranks_witness :
  snd (MatrixFactorizationModel.forward ids_2x2 ids_2x2 biased_model_exact) =
  snd (SimpleMatrixFactorizationModel.forward ids_2x2 ids_2x2 simple_model_exact).
Proof.
  apply (zero_biases_agree_on_supported_ranks biased_model_exact simple_model_exact
           ids_2x2 ids_2x2 2 2 2);
    try reflexivity; try (simpl; lia);
    repeat (apply Forall_cons; [reflexivity || lia|]); apply Forall_nil.
Defined.

(** X20. The factorization machine has no intercept: in exact arithmetic
    a sample all of whose features are zero is scored 0, whatever the
    weights are. *)
Theorem machine_scores_zero_sample_zero
    (self : FactorizationMachine.t R) (x : tensor R) (B n k b : nat) :
  shape x = [B; n] -> well_formed x ->
  shape (FactorizationMachine.linear self) = [n] ->
  shape (SecondOrderInteraction.v (FactorizationMachine.second_order self)) = [n; k] ->
  well_formed (SecondOrderInteraction.v (FactorizationMachine.second_order self)) ->
  b < B ->
  (forall i, i < n -> at2 x b i = 0%R) ->
  exists out,
    snd (FactorizationMachine.forward x self) = Ok out /\
    at2 out b 0 = 0%R.
Proof.
  intros Hx Wx Hw Hv Wv Hb Z.
  destruct (fm_forward_exact self x B n k Hx Wx Hw Hv Wv) as (out & E & _ & C).
  exists out. split; [exact E|]. rewrite (C b Hb).
  rewrite Rsum_zero by (intros i Hi; rewrite (Z i Hi); ring).
  unfold pairwise_interaction. rewrite Hv. simpl nth.
  rewrite Rsum_zero; [ring|].
  intros j Hj. apply Rsum_zero. intros i Hi. rewrite (Z j Hj). ring.
Qed.

Lemma machine_scores_zero_sample_zero_witness :
  exists out,
    snd (FactorizationMachine.forward (mkTensor [2; 3] [1; 2; 3; 0; 0; 0]%R)
           machine_3x2_exact) = Ok out /\
    at2 out 1 0 = 0%R.
Proof.
  apply (machine_scores_zero_sample_zero machine_3x2_exact
           (mkTensor [2; 3] [1; 2; 3; 0; 0; 0]%R) 2 3 2 1);
    try reflexivity; try lia.
  intros i Hi. destruct i as [|[|[|i]]]; try reflexivity. lia.
Defined.

(** X21. An empty batch is not an error: on a batch of shape
    (0, n_features) the interaction module and the factorization machine
    return the empty tensor of shape (0, 1), and the batch size recorded
    is 0. *)
Theorem empty_batch_is_accepted {T : Type} `{Arith T}
    (self : FactorizationMachine.t T) (x : tensor T) (n k : nat) :
  shape x = [0; n] ->
  shape (FactorizationMachine.linear self) = [n] ->
  shape (SecondOrderInteraction.v (FactorizationMachine.second_order self)) = [n; k] ->
  SecondOrderInteraction.forward x (FactorizationMachine.second_order self) =
    (SecondOrderInteraction.set_batch_size 0 (FactorizationMachine.second_order self),
     Ok (mkTensor [0; 1] [])) /\
  FactorizationMachine.forward x self =
    (FactorizationMachine.set_second_order
       (SecondOrderInteraction.set_batch_size 0 (FactorizationMachine.second_order self))
       self,
     Ok (mkTensor [0; 1] [])).
Proof.
  intros Hx Hw Hv.
  assert (S : SecondOrderInteraction.forward x (FactorizationMachine.second_order self) =
              (SecondOrderInteraction.set_batch_size 0
                 (FactorizationMachine.second_order self),
               Ok (mkTensor [0; 1] []))).
  { unfold SecondOrderInteraction.forward, size0. run_method.
    rewrite Hx. simpl.
    rewrite (mm_shapes _ _ _ _ _ Hx Hv).
    rewrite (mm_shapes (pow x 2)
               (pow (SecondOrderInteraction.v (FactorizationMachine.second_order self)) 2)
               _ _ _ Hx Hv).
    unfold tsub. rewrite binop_same_shape by reflexivity.
    rewrite (sum_dim_1_matrix _ 0 k) by reflexivity.
    reflexivity. }
  split; [exact S|].
  unfold FactorizationMachine.forward. run_method.
  rewrite (tmul_rows _ _ _ _ Hx Hw).
  rewrite (sum_dim_1_matrix _ 0 n) by reflexivity.
  rewrite S. reflexivity.
Qed.

Lemma empty_batch_is_accepted_witness :
  SecondOrderInteraction.forward (mkTensor [0; 2] [])
      (FactorizationMachine.second_order machine_2x2) =
    (SecondOrderInteraction.set_batch_size 0 (FactorizationMachine.second_order machine_2x2),
     Ok (mkTensor [0; 1] [])) /\
  FactorizationMachine.forward (mkTensor [0; 2] []) machine_2x2 =
    (FactorizationMachine.set_second_order
       (SecondOrderInteraction.set_batch_size 0
          (FactorizationMachine.second_order machine_2x2))
       machine_2x2,
     Ok (mkTensor [0; 1] [])).
Proof.
  apply (empty_batch_is_accepted machine_2x2 (mkTensor [0; 2] []) 2 2); reflexivity.
Defined.

(** * Index batches of rank 3 and more *)

Section HighRankBatches.

Context {T : Type} `{Arith T}.




End HighRankBatches.


(** Where the indices have dimensions of size 1, [squeeze] lowers the
    rank of the gathered batch and another branch is taken.  Indices of
    shape (1, 1, 1) gather to rank 4 and are squeezed to rank 1: the whole
    tensor is summed.  Indices of shape (2, 2, 1) are squeezed to rank 3:
    axis 2 is then the factor axis, and the inner products come back in
    the shape (2, 2). *)
Lemma unit_dimensions_change_the_branch :
  snd (SimpleMatrixFactorizationModel.forward ids_1x1x1 ids_1x1x1 simple_model_2)
    = Ok (mkTensor [] [f32_of 53 0]) /\
  snd (SimpleMatrixFactorizationModel.forward ids_2x2x1 ids_2x2x1 simple_model_2)
    = Ok (mkTensor [2; 2]
            (data (dot_predictions 2 (SimpleMatrixFactorizationModel.x simple_model_2)
                     (SimpleMatrixFactorizationModel.y simple_model_2)
                     ids_2x2x1 ids_2x2x1))).
Proof. split; reflexivity. Qed.

(** * Floating point against exact arithmetic *)

Lemma second_order_forward_with_mm {T : Type} `{Arith T} (x : tensor T) :
  second_order_forward_with mm x = SecondOrderInteraction.forward x.
Proof. reflexivity. Qed.

(** The claim C1 as it stands fails in binary32, where the closed form is
    not within a tolerance of the sum over the pairs: with
    [v = [[8192], [2^-13]]] and the sample [[1, 1]], the sum
    8192 + 2^-13 is rounded to 8192 and the two squares cancel.  The
    forward pass returns 0, with either kernel of [torch.mm]; the double
    loop over the pairs gives 8192 * 2^-13 = 1. *)
Lemma closed_form_cancels_in_binary32 :
  snd (SecondOrderInteraction.forward batch_ones interaction_cancelling)
    = Ok (mkTensor [1; 1] [S754_zero false]) /\
  snd (second_order_forward_with mm_fused batch_ones interaction_cancelling)
    = Ok (mkTensor [1; 1] [S754_zero false]) /\
  pairwise_loop (SecondOrderInteraction.v interaction_cancelling) batch_ones 0
    = f32_of 1 0 /\
  SFltb (f32_of 1 (-16))
    (SFabs (sub (pairwise_loop (SecondOrderInteraction.v interaction_cancelling)
                   batch_ones 0)
                (S754_zero false))) = true.
Proof. repeat split; reflexivity. Qed.

(** The claim C10 as it stands fails in binary32.  [torch.mm] chooses its
    kernel by the shape of the batch: on the batch of two samples every
    product is rounded before it is added, on the single sample the
    products are added by fused multiply-add.  With
    [v = [[4097], [4098]]] the sample [[5, 3]] is scored 251842624 in the
    batch of two and 251842592 alone. *)
Lemma row_alone_differs_in_binary32 :
  select_rows [0] batch_5_3_and_another = batch_5_3_alone /\
  snd (SecondOrderInteraction.forward batch_5_3_and_another interaction_2x1)
    = Ok (mkTensor [2; 1] [f32_of 251842624 0; f32_of 16789506 0]) /\
  snd (second_order_forward_with mm_fused batch_5_3_alone interaction_2x1)
    = Ok (mkTensor [1; 1] [f32_of 251842592 0]) /\
  SFeqb (f32_of 251842624 0) (f32_of 251842592 0) = false.
Proof. repeat split; reflexivity. Qed.

(** C10, as amended. In exact arithmetic the second-order interaction
    module and the factorization machine compute every output row from
    the sample of that row alone: for any list [bs] of row indices of the
    batch [x], the forward pass on the batch made of the rows [bs] of [x]
    returns the rows [bs] of the forward pass on [x].  With [bs = [b]]
    this is the forward pass on the single-row batch of row [b]; with [bs]
    a permutation of the row indices it is the invariance under a
    permutation of the rows. *)
Theorem rows_independent_exact
    (self : FactorizationMachine.t R) (x : tensor R) (B n k : nat)
    (bs : list nat) :
  shape x = [B; n] -> well_formed x ->
  shape (FactorizationMachine.linear self) = [n] ->
  shape (SecondOrderInteraction.v (FactorizationMachine.second_order self)) = [n; k] ->
  well_formed (SecondOrderInteraction.v (FactorizationMachine.second_order self)) ->
  Forall (fun b => b < B) bs ->
  (exists out,
     snd (SecondOrderInteraction.forward x (FactorizationMachine.second_order self))
       = Ok out /\
     snd (SecondOrderInteraction.forward (select_rows bs x)
            (FactorizationMachine.second_order self))
       = Ok (select_rows bs out)) /\
  (exists out,
     snd (FactorizationMachine.forward x self) = Ok out /\
     snd (FactorizationMachine.forward (select_rows bs x) self)
       = Ok (select_rows bs out)).
Proof.
  intros Hx Wx Hw Hv Wv Hbs. split.
  - exact (second_order_rows _ x B n k bs Hx Wx Hv Wv Hbs).
  - exact (machine_rows self x B n k bs Hx Wx Hw Hv Wv Hbs).
Qed.

Lemma rows_independent_exact_witness :
  (exists out,
     snd (SecondOrderInteraction.forward batch_2x3_exact
            (FactorizationMachine.second_order machine_3x2_exact)) = Ok out /\
     snd (SecondOrderInteraction.forward (select_rows [1; 0] batch_2x3_exact)
            (FactorizationMachine.second_order machine_3x2_exact))
       = Ok (select_rows [1; 0] out)) /\
  (exists out,
     snd (FactorizationMachine.forward batch_2x3_exact machine_3x2_exact) = Ok out /\
     snd (FactorizationMachine.forward (select_rows [1; 0] batch_2x3_exact)
            machine_3x2_exact)
       = Ok (select_rows [1; 0] out)).
Proof.
  apply (rows_independent_exact machine_3x2_exact batch_2x3_exact 2 3 2 [1; 0]);
    try reflexivity.
  repeat (apply Forall_cons; [lia|]). apply Forall_nil.
Defined.

(** X19. In exact arithmetic two batches that agree on a row get the same
    output row from the factorization machine: no sample's score depends
    on the other samples of its batch. *)
Theorem machine_row_alone_exact
    (self : FactorizationMachine.t R) (x x' : tensor R) (B B' n k b b' : nat) :
  shape x = [B; n] -> well_formed x ->
  shape x' = [B'; n] -> well_formed x' ->
  shape (FactorizationMachine.linear self) = [n] ->
  shape (SecondOrderInteraction.v (FactorizationMachine.second_order self)) = [n; k] ->
  well_formed (SecondOrderInteraction.v (FactorizationMachine.second_order self)) ->
  b < B -> b' < B' ->
  select_rows [b] x = select_rows [b'] x' ->
  exists out out',
    snd (FactorizationMachine.forward x self) = Ok out /\
    snd (FactorizationMachine.forward x' self) = Ok out' /\
    select_rows [b] out = select_rows [b'] out'.
Proof.
  intros Hx Wx Hx' Wx' Hw Hv Wv Hb Hb' E.
  destruct (machine_rows self x B n k [b] Hx Wx Hw Hv Wv) as (out & E1 & E2).
  { apply Forall_cons; [exact Hb | apply Forall_nil]. }
  destruct (machine_rows self x' B' n k [b'] Hx' Wx' Hw Hv Wv) as (out' & E1' & E2').
  { apply Forall_cons; [exact Hb' | apply Forall_nil]. }
  exists out, out'. split; [exact E1|]. split; [exact E1'|].
  rewrite E in E2. rewrite E2 in E2'. congruence.
Qed.

Lemma machine_row_alone_exact_witness :
  exists out out',
    snd (FactorizationMachine.forward batch_2x3_exact machine_3x2_exact) = Ok out /\
    snd (FactorizationMachine.forward batch_1x3_exact machine_3x2_exact) = Ok out' /\
    select_rows [1] out = select_rows [0] out'.
Proof.
  apply (machine_row_alone_exact machine_3x2_exact batch_2x3_exact batch_1x3_exact
           2 1 3 2 1 0);
    solve [reflexivity | lia].
Defined.

(** X22. In exact arithmetic two batches that agree on a row get the same
    output row from the second-order interaction module. *)
Theorem second_order_row_alone_exact
    (self : SecondOrderInteraction.t R) (x x' : tensor R) (B B' n k b b' : nat) :
  shape x = [B; n] -> well_formed x ->
  shape x' = [B'; n] -> well_formed x' ->
  shape (SecondOrderInteraction.v self) = [n; k] ->
  well_formed (SecondOrderInteraction.v self) ->
  b < B -> b' < B' ->
  select_rows [b] x = select_rows [b'] x' ->
  exists out out',
    snd (SecondOrderInteraction.forward x self) = Ok out /\
    snd (SecondOrderInteraction.forward x' self) = Ok out' /\
    select_rows [b] out = select_rows [b'] out'.
Proof.
  intros Hx Wx Hx' Wx' Hv Wv Hb Hb' E.
  destruct (second_order_rows self x B n k [b] Hx Wx Hv Wv) as (out & E1 & E2).
  { apply Forall_cons; [exact Hb | apply Forall_nil]. }
  destruct (second_order_rows self x' B' n k [b'] Hx' Wx' Hv Wv) as (out' & E1' & E2').
  { apply Forall_cons; [exact Hb' | apply Forall_nil]. }
  exists out, out'. split; [exact E1|]. split; [exact E1'|].
  rewrite E in E2. rewrite E2 in E2'. congruence.
Qed.

Lemma second_order_row_alone_exact_witness :
  exists out out',
    snd (SecondOrderInteraction.forward batch_2x3_exact
           (FactorizationMachine.second_order machine_3x2_exact)) = Ok out /\
    snd (SecondOrderInteraction.forward batch_1x3_exact
           (FactorizationMachine.second_order machine_3x2_exact)) = Ok out' /\
    select_rows [1] out = select_rows [0] out'.
Proof.
  apply (second_order_row_alone_exact
           (FactorizationMachine.second_order machine_3x2_exact)
           batch_2x3_exact batch_1x3_exact 2 1 3 2 1 0);
    solve [reflexivity | lia].
Defined.
